(** * Australia Wildfires Dashboard: the aggregator, the chart builders and
      the callback wiring, embedded from [src/logic.py], [src/figures.py],
      [src/callbacks.py] and [src/constants.py].

    Modelling choices.
    - A pandas [DataFrame] is the list of its rows, in row order; the two
      aggregate frames returned by [compute_info] are two-column tables,
      lists of (month name, value) pairs in row order.
    - The float64 columns ([Estimated_fire_area], [Count], the means and
      the totals) are exact rationals [Q], kept in lowest terms so that
      equal numbers are equal terms.  Binary64 rounding error, NaN and
      infinities are outside this model.
    - A Python exception is the [Raise] outcome of the [result] type. *)

From Stdlib Require Import List String Ascii Bool ZArith QArith Qround Qabs Lia Lqa.
From Stdlib Require Import Sorted.
From Stdlib Require DecimalString DecimalPos DecimalZ.
Import ListNotations.

Local Open Scope string_scope.
Local Open Scope list_scope.

Set Implicit Arguments.

(** ** Python values and exceptions *)

Inductive exn : Type :=
| ValueError
| TypeError
| IndexError.

Inductive result (A : Type) : Type :=
| Ok (a : A)
| Raise (e : exn).

Arguments Ok {A} a.
Arguments Raise {A} e.

Definition bind {A B : Type} (m : result A) (k : A -> result B) : result B :=
  match m with
  | Ok a => k a
  | Raise e => Raise e
  end.

Notation "x <- m ;; k" := (bind m (fun x => k))
  (at level 61, m at next level, right associativity).

(** The values a selection widget can hand to a callback: the dropdown
    yields the chosen option (an [int] of [YEARS]), [None] once it is
    cleared, and the annotation of [compute_info] allows a [str]. *)
Inductive pyval : Type :=
| PyNone
| PyInt (z : Z)
| PyStr (s : string).

(** *** [int(x)], for [None], an [int] and an ASCII [str]: blanks around,
    a sign, decimal digits *)

Definition is_space (c : ascii) : bool :=
  let n := nat_of_ascii c in
  ((9 <=? n) && (n <=? 13) || (n =? 32))%nat.

Definition digit_val (c : ascii) : option Z :=
  let n := nat_of_ascii c in
  if ((48 <=? n) && (n <=? 57))%nat then Some (Z.of_nat (n - 48)) else None.

Fixpoint lstrip (l : list ascii) : list ascii :=
  match l with
  | c :: l' => if is_space c then lstrip l' else l
  | [] => []
  end.

Definition strip (l : list ascii) : list ascii :=
  List.rev (lstrip (List.rev (lstrip l))).

(** Decimal digits, a single underscore allowed between two digits.
    [prev] tells whether the previous character was a digit. *)
Fixpoint parse_digits (acc : Z) (prev : bool) (l : list ascii) : option Z :=
  match l with
  | [] => if prev then Some acc else None
  | c :: l' =>
      match digit_val c with
      | Some d => parse_digits (10 * acc + d) true l'
      | None =>
          if (Ascii.eqb c "_"%char && prev)%bool
          then parse_digits acc false l'
          else None
      end
  end.

Definition int_of_str (s : string) : option Z :=
  match strip (list_ascii_of_string s) with
  | "+"%char :: l => parse_digits 0 false l
  | "-"%char :: l => option_map Z.opp (parse_digits 0 false l)
  | l => parse_digits 0 false l
  end.

Definition py_int (v : pyval) : result Z :=
  match v with
  | PyNone => Raise TypeError
  | PyInt z => Ok z
  | PyStr s =>
      match int_of_str s with
      | Some z => Ok z
      | None => Raise ValueError
      end
  end.

(** *** [str(x)] of an integer and of a selection value *)

Definition str_of_Z (z : Z) : string := DecimalString.NilZero.string_of_int (Z.to_int z).

Definition py_str (v : pyval) : string :=
  match v with
  | PyNone => "None"
  | PyInt z => str_of_Z z
  | PyStr s => s
  end.

(** ** Column arithmetic *)

Module Num.

Definition add (a b : Q) : Q := Qred (a + b).

(** [Series.sum]: the elements added in row order, 0 for no element. *)
Definition sum (l : list Q) : Q := fold_left add l 0%Q.

(** [.mean()] of one group: sum over count.  A group holds a row at
    least. *)
Definition mean (l : list Q) : Q :=
  Qred (sum l / inject_Z (Z.of_nat (List.length l))).

(** [numpy.rint]: the nearest integer, a tie going to the even one. *)
Definition rint (q : Q) : Z :=
  let f := Qfloor q in
  match Qcompare (q - inject_Z f) (1 # 2) with
  | Lt => f
  | Gt => (f + 1)%Z
  | Eq => if Z.even f then f else (f + 1)%Z
  end.

(** [Series.round(0)]: the column keeps its float dtype. *)
Definition round0 (q : Q) : Q := inject_Z (rint q).

(** [int(x)] of a float: truncation toward zero. *)
Definition trunc (q : Q) : Z := Z.quot (Qnum q) (Zpos (Qden q)).

End Num.

(** ** The dataset *)

Record row : Type := {
  Region : string;
  Year : Z;
  Month_name : string;
  Estimated_fire_area : Q;
  Count : Q
}.

Definition DataFrame : Type := list row.

(** A frame with the columns [Month_name] and one value column. *)
Definition table : Type := list (string * Q).

(** ** [groupby(df["Month_name"], sort=False)[col]] *)

(** The groups are numbered in the order their key is first met; a row
    joins the group of its key, or opens a new group after the others. *)
Fixpoint group_insert (k : string) (v : Q) (gs : list (string * list Q))
  : list (string * list Q) :=
  match gs with
  | [] => [(k, [v])]
  | (k', vs) :: gs' =>
      if String.eqb k k' then (k', vs ++ [v]) :: gs'
      else (k', vs) :: group_insert k v gs'
  end.

Definition groupby (col : row -> Q) (df : DataFrame) : list (string * list Q) :=
  fold_left (fun gs r => group_insert (Month_name r) (col r) gs) df [].

(** [.mean().reset_index()] and [.mean().round(0).reset_index()] *)
Definition agg (f : list Q -> Q) (gs : list (string * list Q)) : table :=
  map (fun g => (fst g, f (snd g))) gs.

(** ** logic.py *)

Record info : Type := {
  avg_fire_area : table;
  total_area : Q;
  avg_count_pixels : table;
  total_pixels : Q
}.

(** [data[(data["Region"] == entered_region) & (data["Year"] == year)]] *)
Definition select (data : DataFrame) (entered_region : string) (year : Z)
  : DataFrame :=
  filter (fun r => (String.eqb (Region r) entered_region
                    && Z.eqb (Year r) year)%bool) data.

Definition compute_info (data : DataFrame) (entered_region : string)
  (entered_year : pyval) : result info :=
  year <- py_int entered_year ;;
  let df := select data entered_region year in
  let avg_fire_area := agg Num.mean (groupby Estimated_fire_area df) in
  let total_area := Num.sum (map snd avg_fire_area) in
  let avg_count_pixels :=
    agg (fun vs => Num.round0 (Num.mean vs)) (groupby Count df) in
  let total_pixels := Num.sum (map snd avg_count_pixels) in
  Ok {| avg_fire_area := avg_fire_area;
        total_area := total_area;
        avg_count_pixels := avg_count_pixels;
        total_pixels := total_pixels |}.

(** ** The scenario dataset of the specification *)

Definition mk (r : string) (y : Z) (m : string) (a c : Q) : row :=
  {| Region := r; Year := y; Month_name := m;
     Estimated_fire_area := a; Count := c |}.

Definition scenario : DataFrame :=
  [ mk "NSW" 2019 "Jan" 10 100;
    mk "NSW" 2019 "Jan" 20 300;
    mk "NSW" 2019 "Feb" 5 50 ].

(** ** constants.py *)

Definition REGIONS : list (string * string) :=
  [ ("New South Wales", "NSW");
    ("Northern Territory", "NT");
    ("Queensland", "QLD");
    ("South Australia", "SA");
    ("Tasmania", "TAS");
    ("Victoria", "VIC");
    ("Western Australia", "WA") ].

(** [tuple(range(2005, 2021))] *)
Definition YEARS : list Z := map Z.of_nat (seq 2005 16).

Definition region_values : list string := map snd REGIONS.

(** ** figures.py *)

(** [Series.unique()]: the distinct values in order of appearance;
    [seen] is the hash table of the values met so far. *)
Fixpoint unique_from (seen l : list string) : list string :=
  match l with
  | [] => []
  | x :: l' =>
      if existsb (String.eqb x) seen then unique_from seen l'
      else x :: unique_from (x :: seen) l'
  end.

Definition unique (l : list string) : list string := unique_from [] l.

Definition pad2 (n : Z) : string :=
  if (n <? 10)%Z then ("0" ++ str_of_Z n)%string else str_of_Z n.

(** [f"{q:.2f}"] *)
Definition format_2f (q : Q) : string :=
  let c := Num.rint (Qabs q * 100) in
  ((match Qcompare q 0 with Lt => "-" | _ => "" end)
   ++ str_of_Z (c / 100) ++ "." ++ pad2 (c mod 100))%string.

(** The UTF-8 bytes of the superscript two of the unit. *)
Definition sup2 : string :=
  String (ascii_of_nat 194) (String (ascii_of_nat 178) EmptyString).

Record annotation : Type := {
  text : string;
  x : Q;
  y : Q;
  xref : string;
  yref : string;
  showarrow : bool
}.

Record legend : Type := {
  legend_title : string;
  legend_font_weight : Z;
  legend_side : string;
  bordercolor : string;
  borderwidth : Z;
  xanchor : string;
  legend_x : Q;
  legend_y : Q
}.

Record donut : Type := {
  donut_values : list Q;
  donut_names : list string;
  category_orders : list string;
  hole : Q;
  donut_legend : legend;
  donut_sort : bool;
  donut_hovertemplate : string;
  marker_colors : list string;
  texttemplate : string;
  donut_annotation : annotation
}.

Record bar : Type := {
  bar_x : list string;
  bar_y : list Q;
  xaxis_title : string;
  xaxis_title_standoff : Q;
  xaxis_showgrid : bool;
  yaxis_title : string;
  bar_hovertemplate : string;
  bar_annotation : annotation
}.

Section Figures.

(** [px.colors.qualitative.Pastel], the palette of the plotting library. *)
Variable Pastel : list string.

(** [px.pie] takes [values] from the frame and [names] as an array of its
    own, and refuses arguments of different lengths. *)
Definition generate_donut (df : table) (total_area : Q) : result donut :=
  let names := unique (map fst df) in
  if (List.length names =? List.length df)%nat then
    Ok {| donut_values := map snd df;
          donut_names := names;
          category_orders := unique (map fst df);
          hole := 2 # 5;
          donut_legend :=
            {| legend_title := "Month";
               legend_font_weight := 1000;
               legend_side := "top center";
               bordercolor := "black";
               borderwidth := 1;
               xanchor := "left";
               legend_x := - (3 # 10);
               legend_y := 1 # 2 |};
          donut_sort := false;
          donut_hovertemplate :=
            ("<b>%{label}:</b><br>%{value:.2f} km" ++ sup2
             ++ "<br>(%{percent:.2%})<extra></extra>")%string;
          marker_colors := Pastel;
          texttemplate := "%{percent:.2%}";
          donut_annotation :=
            {| text := ("<b>Total</b>:<br>" ++ format_2f total_area
                        ++ " km" ++ sup2)%string;
               x := 1 # 2;
               y := 1 # 2;
               xref := "paper";
               yref := "paper";
               showarrow := false |} |}
  else Raise ValueError.

Definition generate_bar (df : table) (total_pixels : Q) : bar :=
  {| bar_x := map fst df;
     bar_y := map snd df;
     xaxis_title := "Month";
     xaxis_title_standoff := 1 # 5;
     xaxis_showgrid := true;
     yaxis_title := "Pixel Count";
     bar_hovertemplate := "<b>%{x}:</b><br>%{y} pixels<extra></extra>";
     bar_annotation :=
       {| text := ("<b>Total number of pixels</b>: "
                   ++ str_of_Z (Num.trunc total_pixels) ++ " pixels")%string;
          x := 0;
          y := 11 # 10;
          xref := "paper";
          yref := "paper";
          showarrow := false |} |}.

(** ** callbacks.py *)

Definition get_graph (df : DataFrame) (entered_region : string)
  (entered_year : pyval) : result (donut * bar) :=
  i <- compute_info df entered_region entered_year ;;
  pie <- generate_donut (avg_fire_area i) (total_area i) ;;
  Ok (pie, generate_bar (avg_count_pixels i) (total_pixels i)).

Definition get_title (entered_region : string) (entered_year : pyval)
  : string * string :=
  ((entered_region ++ ": Monthly Average Estimated Fire Area in Year "
      ++ py_str entered_year ++ ".")%string,
   (entered_region
      ++ ": Monthly Average Count of Pixels for Presumed Vegetation Fires in Year "
      ++ py_str entered_year ++ ".")%string).

(** *** The page.  Each registered callback is a reaction of its own:
    a change of an input queues every callback that lists it, and each
    queued callback is then run and its outputs written as one step.
    A callback that raises leaves its outputs as they were. *)

Inductive callback : Type :=
| GetGraph
| GetTitle.

Record page : Type := {
  region_items : string;
  year_items : pyval;
  pie_chart : option donut;
  bar_chart : option bar;
  pie_title : option string;
  bar_title : option string;
  pending : list callback
}.

Definition callback_eqb (a b : callback) : bool :=
  match a, b with
  | GetGraph, GetGraph | GetTitle, GetTitle => true
  | _, _ => false
  end.

Definition dequeue (c : callback) (q : list callback) : list callback :=
  filter (fun c' => negb (callback_eqb c c')) q.

(** Both callbacks list both inputs. *)
Definition select_inputs (r : string) (y : pyval) (u : page) : page :=
  {| region_items := r;
     year_items := y;
     pie_chart := pie_chart u;
     bar_chart := bar_chart u;
     pie_title := pie_title u;
     bar_title := bar_title u;
     pending := [GetGraph; GetTitle] |}.

Definition run_callback (df : DataFrame) (c : callback) (u : page) : page :=
  match c with
  | GetGraph =>
      match get_graph df (region_items u) (year_items u) with
      | Ok (p, b) =>
          {| region_items := region_items u;
             year_items := year_items u;
             pie_chart := Some p;
             bar_chart := Some b;
             pie_title := pie_title u;
             bar_title := bar_title u;
             pending := dequeue GetGraph (pending u) |}
      | Raise _ =>
          {| region_items := region_items u;
             year_items := year_items u;
             pie_chart := pie_chart u;
             bar_chart := bar_chart u;
             pie_title := pie_title u;
             bar_title := bar_title u;
             pending := dequeue GetGraph (pending u) |}
      end
  | GetTitle =>
      let t := get_title (region_items u) (year_items u) in
      {| region_items := region_items u;
         year_items := year_items u;
         pie_chart := pie_chart u;
         bar_chart := bar_chart u;
         pie_title := Some (fst t);
         bar_title := Some (snd t);
         pending := dequeue GetTitle (pending u) |}
  end.

(** layout.py: the page as first loaded, with the selection
    [regions[0]["value"]] and [years[-1]], nothing drawn yet and both
    callbacks queued.  An empty option list raises [IndexError]. *)
Definition first_load (regions : list (string * string)) (years : list Z)
  : result page :=
  match regions, List.rev years with
  | (_, v) :: _, y :: _ =>
      Ok {| region_items := v;
            year_items := PyInt y;
            pie_chart := None;
            bar_chart := None;
            pie_title := None;
            bar_title := None;
            pending := [GetGraph; GetTitle] |}
  | _, _ => Raise IndexError
  end.

(** The states seen while the queued callbacks of one input change run. *)
Inductive reacts (df : DataFrame) : page -> page -> Prop :=
| reacts_refl u : reacts df u u
| reacts_step u c u' :
    In c (pending u) -> reacts df (run_callback df c u) u' -> reacts df u u'.

(** What the page shows for a selection, and what it showed before. *)
Definition charts_new (df : DataFrame) (r : string) (y : pyval) (u : page)
  : Prop :=
  exists p b, get_graph df r y = Ok (p, b)
              /\ pie_chart u = Some p /\ bar_chart u = Some b.

Definition titles_new (r : string) (y : pyval) (u : page) : Prop :=
  pie_title u = Some (fst (get_title r y))
  /\ bar_title u = Some (snd (get_title r y)).

Definition charts_old (u0 u : page) : Prop :=
  pie_chart u = pie_chart u0 /\ bar_chart u = bar_chart u0.

Definition titles_old (u0 u : page) : Prop :=
  pie_title u = pie_title u0 /\ bar_title u = bar_title u0.

(** While the callbacks queued by a change of the selection run: the
    inputs stay, a queued callback has not written yet, and a callback
    that has run has written both of its outputs, or none when it raised. *)
Definition settling (df : DataFrame) (u0 : page)
  (r : string) (y : pyval) (u : page) : Prop :=
  region_items u = r /\ year_items u = y
  /\ (if existsb (callback_eqb GetGraph) (pending u)
      then charts_old u0 u
      else match get_graph df r y with
           | Ok _ => charts_new df r y u
           | Raise _ => charts_old u0 u
           end)
  /\ (if existsb (callback_eqb GetTitle) (pending u)
      then titles_old u0 u
      else titles_new r y u).

(** A page on which nothing is drawn and nothing is queued. *)
Definition blank_page : page :=
  {| region_items := "NSW";
     year_items := PyInt 2020;
     pie_chart := None;
     bar_chart := None;
     pie_title := None;
     bar_title := None;
     pending := [] |}.

(** The page once both callbacks of the first load have run. *)
Definition loaded_page (df : DataFrame) : result page :=
  p <- first_load REGIONS YEARS ;;
  Ok (run_callback df GetTitle (run_callback df GetGraph p)).

(** The four outputs change as one: every state seen after a change of
    the selection shows either all four as before or all four anew. *)
Definition atomic_reaction (df : DataFrame) : Prop :=
  forall u0 r y u,
    pending u0 = [] ->
    reacts df (select_inputs r y u0) u ->
    (charts_old u0 u /\ titles_old u0 u)
    \/ (charts_new df r y u /\ titles_new r y u).

End Figures.

(** ** What a call finds and leaves beyond its arguments *)

















(** ** Order of first occurrence *)

(** [l.index(x)]: the position at which [x] first occurs in [l]
    (the length of [l] when it does not occur). *)
Fixpoint index (x : string) (l : list string) : nat :=
  match l with
  | [] => 0
  | a :: l' => if String.eqb x a then 0 else S (index x l')
  end.

(** [ks] lists the distinct elements of [l], each once, an element whose
    first occurrence in [l] is earlier standing earlier in [ks]. *)
Definition first_occurrence_order (l ks : list string) : Prop :=
  NoDup ks
  /\ (forall x, In x ks <-> In x l)
  /\ StronglySorted (fun a b => (index a l < index b l)%nat) ks.

(** The records of [data] of one region, year and month. *)
Definition records_of (data : DataFrame) (r : string) (y : Z) (m : string)
  : DataFrame :=
  filter (fun rec => (String.eqb (Region rec) r && Z.eqb (Year rec) y
                      && String.eqb (Month_name rec) m)%bool) data.

Definition empty_info : info :=
  {| avg_fire_area := []; total_area := 0;
     avg_count_pixels := []; total_pixels := 0 |}.

(** What [compute_info] returns on the scenario for (NSW, 2019). *)
Definition scenario_info : info :=
  {| avg_fire_area := [("Jan", 15); ("Feb", 5)];
     total_area := 20;
     avg_count_pixels := [("Jan", 200); ("Feb", 50)];
     total_pixels := 250 |}.

(** Two months whose mean counts are both one half, and three months
    met in the order March, January, February. *)
Definition halves : DataFrame :=
  [ mk "NSW" 2019 "Jan" 1 0;
    mk "NSW" 2019 "Jan" 3 1;
    mk "NSW" 2019 "Feb" 2 1;
    mk "NSW" 2019 "Feb" 2 0 ].

Definition shuffled : DataFrame :=
  [ mk "NSW" 2019 "Mar" 1 1;
    mk "VIC" 2019 "Apr" 1 1;
    mk "NSW" 2019 "Jan" 1 1;
    mk "NSW" 2019 "Mar" 1 1;
    mk "NSW" 2019 "Feb" 1 1 ].

(** The scenario with a record of the default year 2020 added. *)
Definition two_years : DataFrame :=
  scenario ++ [ mk "NSW" 2020 "Jan" 8 40 ].

(** A dataset with a record of a region that [REGIONS] does not list and of
    a year outside [YEARS]. *)
Definition unlisted : DataFrame := [ mk "ACT" 1999 "Jan" 7 3 ].

(** ** layout.py *)

(** A value of a style dictionary. *)
Inductive css : Type :=
| CssStr (s : string)
| CssInt (z : Z).

Definition style : Type := list (string * css).

(** The components [build_layout] uses, with the arguments it gives them. *)
#[warnings="-register-all"]
Inductive component : Type :=
| Div (children : list component) (st : option style)
| H1 (title : string) (st : style)
| Label (caption : string) (st : style)
| Br
| RadioItems (cid : string) (options : list (string * string))
    (value : string) (labelStyle inputStyle : style)
| Dropdown (cid : string) (options : list Z) (value : Z) (st : style)
| H3 (cid : string) (st : style)
| Graph (cid : string).

(** [regions[0]["value"]] and [years[-1]] raise [IndexError] on an empty
    list. *)
Definition build_layout (regions : list (string * string)) (years : list Z)
  : result component :=
  match regions with
  | [] => Raise IndexError
  | (_, region0) :: _ =>
      match List.rev years with
      | [] => Raise IndexError
      | year_last :: _ =>
          Ok (Div
                [ H1 "Australian Wildfires Dashboard"
                    [ ("textAlign", CssStr "center");
                      ("color", CssStr "#503D36");
                      ("font-size", CssInt 30) ];
                  Div
                    [ Label "Region" [ ("font-size", CssInt 20) ];
                      Br;
                      Br;
                      RadioItems "region-items" regions region0
                        [ ("display", CssStr "inline-flex");
                          ("margin-right", CssStr "16px");
                          ("align-items", CssStr "center") ]
                        [ ("margin-right", CssStr "8px");
                          ("verticalAlign", CssStr "middle") ];
                      Br;
                      Label "Year" [ ("font-size", CssInt 20) ];
                      Br;
                      Br;
                      Dropdown "year-items" years year_last
                        [ ("width", CssStr "50%") ] ]
                    None;
                  Div
                    [ Div
                        [ H3 "pie-title"
                            [ ("textAlign", CssStr "center");
                              ("marginBottom", CssStr "8px") ];
                          Graph "pie-chart" ]
                        (Some [ ("width", CssStr "50%");
                                ("padding", CssStr "16px") ]);
                      Div
                        [ H3 "bar-title"
                            [ ("textAlign", CssStr "center");
                              ("marginBottom", CssStr "8px") ];
                          Graph "bar-chart" ]
                        (Some [ ("width", CssStr "50%");
                                ("padding", CssStr "16px") ]) ]
                    (Some [ ("display", CssStr "flex");
                            ("justifyContent", CssStr "center");
                            ("alignItems", CssStr "flex-start");
                            ("gap", CssStr "16px") ]) ]
                None)
      end
  end.

(** The components of a tree that carry an identifier, in document order. *)
Fixpoint identified (c : component) : list component :=
  match c with
  | Div children _ => flat_map identified children
  | RadioItems _ _ _ _ _ | Dropdown _ _ _ _ | H3 _ _ | Graph _ => [c]
  | H1 _ _ | Label _ _ | Br => []
  end.

Definition component_id (c : component) : option string :=
  match c with
  | RadioItems i _ _ _ _ | Dropdown i _ _ _ | H3 i _ | Graph i => Some i
  | Div _ _ | H1 _ _ | Label _ _ | Br => None
  end.

(** The properties of a component that the layout sets or a callback
    reads or writes. *)
Definition properties (c : component) : list string :=
  match c with
  | RadioItems _ _ _ _ _ =>
      [ "id"; "options"; "value"; "labelStyle"; "inputStyle" ]
  | Dropdown _ _ _ _ => [ "id"; "options"; "value"; "style" ]
  | H3 _ _ => [ "id"; "style"; "children" ]
  | Graph _ => [ "id"; "figure" ]
  | Div _ (Some _) => [ "children"; "style" ]
  | Div _ None => [ "children" ]
  | H1 _ _ | Label _ _ => [ "children"; "style" ]
  | Br => []
  end.

Definition offers (c : component) (property : string) : bool :=
  existsb (String.eqb property) (properties c).

(** callbacks.py: the [Output] and [Input] lists of the two decorators, as
    (component_id, component_property) pairs. *)
Definition outputs (c : callback) : list (string * string) :=
  match c with
  | GetGraph => [ ("pie-chart", "figure"); ("bar-chart", "figure") ]
  | GetTitle => [ ("pie-title", "children"); ("bar-title", "children") ]
  end.

Definition inputs (c : callback) : list (string * string) :=
  match c with
  | GetGraph | GetTitle =>
      [ ("region-items", "value"); ("year-items", "value") ]
  end.

(** The component of a tree a dependency names. *)
Definition wired (tree : component) (dep : string * string)
  : list component :=
  filter (fun c => match component_id c with
                   | Some i => String.eqb i (fst dep)
                   | None => false
                   end) (identified tree).

(** * Properties *)

(** ** Column arithmetic *)

Lemma Qred_inject_Z (z : Z) : Qred (inject_Z z) = inject_Z z.
Proof.
  pose proof (Qred_correct (inject_Z z)) as E.
  pose proof (gcd_Qred (inject_Z z)) as G.
  destruct (Qred (inject_Z z)) as [n d].
  unfold Qeq in E. simpl in E, G.
  rewrite Z.mul_1_r in E. subst n.
  rewrite Z.gcd_comm, (Z.mul_comm z), Z.gcd_mul_diag_l in G by lia.
  unfold inject_Z. f_equal; lia.
Qed.

Lemma add_inject_Z (a b : Z) :
  Num.add (inject_Z a) (inject_Z b) = inject_Z (a + b).
Proof.
  unfold Num.add. rewrite <- (Qred_inject_Z (a + b)). apply Qred_complete.
  rewrite inject_Z_plus. reflexivity.
Qed.

Lemma fold_add_inject_Z (l : list Z) (a : Z) :
  fold_left Num.add (map inject_Z l) (inject_Z a)
  = inject_Z (fold_left Z.add l a).
Proof.
  revert a. induction l as [|z l IH]; intros a; simpl; [reflexivity|].
  rewrite add_inject_Z. apply IH.
Qed.

Lemma sum_inject_Z (l : list Z) :
  Num.sum (map inject_Z l) = inject_Z (fold_left Z.add l 0%Z).
Proof. apply (fold_add_inject_Z l 0). Qed.

Lemma trunc_inject_Z (z : Z) : Num.trunc (inject_Z z) = z.
Proof. unfold Num.trunc. simpl. apply Z.quot_1_r. Qed.

Lemma fold_add_Qeq (l : list Q) (a : Q) :
  fold_left Num.add l a == fold_right Qplus 0 l + a.
Proof.
  revert a. induction l as [|q l IH]; intros a; simpl.
  - ring.
  - rewrite IH. unfold Num.add. rewrite Qred_correct. ring.
Qed.

(** [Num.sum] is the mathematical sum. *)
Lemma sum_Qeq (l : list Q) : Num.sum l == fold_right Qplus 0 l.
Proof. unfold Num.sum. rewrite fold_add_Qeq. ring. Qed.

(** [Num.mean] is the sum divided by the number of elements. *)
Lemma mean_Qeq (l : list Q) :
  Num.mean l == fold_right Qplus 0 l / inject_Z (Z.of_nat (List.length l)).
Proof. unfold Num.mean. rewrite Qred_correct, sum_Qeq. reflexivity. Qed.

(** The three ways [Num.rint] answers, by the fractional part. *)
Lemma rint_cases (q : Q) :
  let f := Qfloor q in
  let d := q - inject_Z f in
  (d < 1 # 2 /\ Num.rint q = f)
  \/ (1 # 2 < d /\ Num.rint q = (f + 1)%Z)
  \/ (d == 1 # 2 /\ Z.even (Num.rint q) = true
      /\ (Num.rint q = f \/ Num.rint q = (f + 1)%Z)).
Proof.
  intros f d. unfold Num.rint. fold f. fold d.
  destruct (Qcompare_spec d (1 # 2)) as [E|L|G].
  - right; right. split; [exact E|].
    destruct (Z.even f) eqn:Ev.
    + split; [exact Ev | left; reflexivity].
    + split; [| right; reflexivity].
      replace (f + 1)%Z with (Z.succ f) by lia.
      rewrite Z.even_succ, <- Z.negb_even, Ev. reflexivity.
  - left. split; [exact L | reflexivity].
  - right; left. split; [exact G | reflexivity].
Qed.

Lemma floor_bounds (q : Q) :
  inject_Z (Qfloor q) <= q /\ q < inject_Z (Qfloor q) + 1.
Proof.
  split; [apply Qfloor_le|].
  pose proof (Qlt_floor q) as H. rewrite inject_Z_plus in H. exact H.
Qed.

Lemma Z_side_Q (z f : Z) :
  inject_Z z <= inject_Z f \/ inject_Z f + 1 <= inject_Z z.
Proof.
  destruct (Z_le_gt_dec z f) as [H|H].
  - left. rewrite <- Zle_Qle. exact H.
  - right. change 1 with (inject_Z 1). rewrite <- inject_Z_plus, <- Zle_Qle. lia.
Qed.

(** [Num.rint q] is an integer nearest to [q]. *)
Lemma rint_nearest (q : Q) (z : Z) :
  Qabs (q - inject_Z (Num.rint q)) <= Qabs (q - inject_Z z).
Proof.
  destruct (floor_bounds q) as [Hlo Hhi].
  destruct (rint_cases q) as [[Hd Hr]|[[Hd Hr]|[Hd [_ [Hr|Hr]]]]];
    rewrite Hr; try rewrite inject_Z_plus; change (inject_Z 1) with 1;
    destruct (Z_side_Q z (Qfloor q)) as [Hz|Hz];
    apply Qabs_case; intros; apply Qabs_case; intros; lra.
Qed.

(** When two integers are equally near, [Num.rint q] is the even one. *)
Lemma rint_tie_even (q : Q) (z : Z) :
  z <> Num.rint q ->
  Qabs (q - inject_Z z) == Qabs (q - inject_Z (Num.rint q)) ->
  Z.even (Num.rint q) = true.
Proof.
  intros Hne Heq.
  destruct (floor_bounds q) as [Hlo Hhi].
  destruct (rint_cases q) as [[Hd Hr]|[[Hd Hr]|[Hd [Hev _]]]];
    [exfalso | exfalso | exact Hev].
  - rewrite Hr in Heq, Hne.
    assert (Hz : inject_Z z <= inject_Z (Qfloor q) - 1
                 \/ inject_Z (Qfloor q) + 1 <= inject_Z z).
    { destruct (Z_le_gt_dec z (Qfloor q - 1)) as [H|H].
      - left. change 1 with (inject_Z 1).
        unfold Qminus. rewrite <- inject_Z_opp, <- inject_Z_plus, <- Zle_Qle. lia.
      - right. change 1 with (inject_Z 1).
        rewrite <- inject_Z_plus, <- Zle_Qle. lia. }
    revert Heq. destruct Hz; apply Qabs_case; intros ?; apply Qabs_case; intros; lra.
  - rewrite Hr in Heq, Hne.
    assert (Hz : inject_Z z <= inject_Z (Qfloor q)
                 \/ inject_Z (Qfloor q) + 2 <= inject_Z z).
    { destruct (Z_le_gt_dec z (Qfloor q)) as [H|H].
      - left. rewrite <- Zle_Qle. exact H.
      - right. change 2 with (inject_Z 2).
        rewrite <- inject_Z_plus, <- Zle_Qle. lia. }
    rewrite inject_Z_plus in Heq. change (inject_Z 1) with 1 in Heq.
    revert Heq. destruct Hz; apply Qabs_case; intros ?; apply Qabs_case; intros; lra.
Qed.

(** ** [int] reads back what [str] prints *)

Definition uint_chars (d : Decimal.uint) : list ascii :=
  list_ascii_of_string (DecimalString.NilEmpty.string_of_uint d).

Lemma lstrip_no_space (l : list ascii) :
  Forall (fun c => is_space c = false) l -> lstrip l = l.
Proof.
  intros H. destruct H as [|c l Hc _]; [reflexivity|].
  simpl. rewrite Hc. reflexivity.
Qed.

Lemma strip_no_space (l : list ascii) :
  Forall (fun c => is_space c = false) l -> strip l = l.
Proof.
  intros H. unfold strip. rewrite (lstrip_no_space H).
  rewrite lstrip_no_space by (apply Forall_rev, H).
  apply rev_involutive.
Qed.

Lemma uint_chars_no_space (d : Decimal.uint) :
  Forall (fun c => is_space c = false) (uint_chars d).
Proof.
  unfold uint_chars.
  induction d; simpl; constructor; try reflexivity; assumption.
Qed.

Lemma parse_digits_digit (acc : Z) (prev : bool) (c : ascii) (k : Z)
  (l : list ascii) :
  digit_val c = Some k ->
  parse_digits acc prev (c :: l) = parse_digits (10 * acc + k) true l.
Proof. intros H. cbn [parse_digits]. rewrite H. reflexivity. Qed.

Ltac digit_case D d c k n IH :=
  change (uint_chars (D d)) with (c :: uint_chars d);
  rewrite (@parse_digits_digit _ _ c k (uint_chars d) eq_refl);
  rewrite IH by (right; reflexivity);
  change (Decimal.rev (D d)) with (Decimal.revapp d (D Decimal.Nil));
  rewrite (DecimalPos.Unsigned.of_lu_revapp d (D Decimal.Nil));
  change (DecimalPos.Unsigned.of_lu (D Decimal.Nil)) with n;
  change (DecimalPos.Unsigned.usize (D d))
    with (N.succ (DecimalPos.Unsigned.usize d));
  rewrite N2Z.inj_add, N2Z.inj_mul, N2Z.inj_pow, N2Z.inj_succ,
    Z.pow_succ_r by apply N2Z.is_nonneg;
  cbn [Z.of_N]; f_equal; ring.

Lemma parse_digits_uint (d : Decimal.uint) (acc : Z) (prev : bool) :
  d <> Decimal.Nil \/ prev = true ->
  parse_digits acc prev (uint_chars d)
  = Some (acc * 10 ^ Z.of_N (DecimalPos.Unsigned.usize d)
          + Z.of_N (DecimalPos.Unsigned.of_lu (Decimal.rev d)))%Z.
Proof.
  revert acc prev.
  induction d as [|d IH|d IH|d IH|d IH|d IH|d IH|d IH|d IH|d IH|d IH];
    intros acc prev H.
  - destruct H as [H|H]; [congruence|]. subst prev. simpl. f_equal. lia.
  - digit_case Decimal.D0 d "0"%char 0%Z 0%N IH.
  - digit_case Decimal.D1 d "1"%char 1%Z 1%N IH.
  - digit_case Decimal.D2 d "2"%char 2%Z 2%N IH.
  - digit_case Decimal.D3 d "3"%char 3%Z 3%N IH.
  - digit_case Decimal.D4 d "4"%char 4%Z 4%N IH.
  - digit_case Decimal.D5 d "5"%char 5%Z 5%N IH.
  - digit_case Decimal.D6 d "6"%char 6%Z 6%N IH.
  - digit_case Decimal.D7 d "7"%char 7%Z 7%N IH.
  - digit_case Decimal.D8 d "8"%char 8%Z 8%N IH.
  - digit_case Decimal.D9 d "9"%char 9%Z 9%N IH.
Qed.

Lemma int_of_str_digits (d : Decimal.uint) :
  d <> Decimal.Nil ->
  int_of_str (DecimalString.NilEmpty.string_of_uint d)
  = Some (Z.of_N (Pos.of_uint d)).
Proof.
  intros Hd. unfold int_of_str.
  fold (uint_chars d). rewrite (strip_no_space (uint_chars_no_space d)).
  assert (E : parse_digits 0 false (uint_chars d)
              = Some (Z.of_N (Pos.of_uint d))).
  { rewrite parse_digits_uint by (left; exact Hd).
    rewrite DecimalPos.Unsigned.of_uint_alt. reflexivity. }
  rewrite <- E. destruct d; reflexivity.
Qed.

Lemma int_of_str_minus_digits (d : Decimal.uint) :
  d <> Decimal.Nil ->
  int_of_str (String "-" (DecimalString.NilEmpty.string_of_uint d))
  = Some (- Z.of_N (Pos.of_uint d))%Z.
Proof.
  intros Hd. unfold int_of_str.
  change (list_ascii_of_string
            (String "-" (DecimalString.NilEmpty.string_of_uint d)))
    with ("-"%char :: uint_chars d).
  rewrite strip_no_space
    by (constructor; [reflexivity | apply uint_chars_no_space]).
  rewrite (@parse_digits_uint d 0 false) by (left; exact Hd).
  rewrite DecimalPos.Unsigned.of_uint_alt. simpl. reflexivity.
Qed.

(** The decimal writing of an integer converts back to that integer. *)
Lemma py_int_str_of_Z (z : Z) : py_int (PyStr (str_of_Z z)) = Ok z.
Proof.
  unfold py_int, str_of_Z.
  destruct z as [|p|p]; [reflexivity| |];
    pose proof (DecimalPos.Unsigned.to_uint_nonnil p) as Hn;
    pose proof (DecimalPos.Unsigned.of_to p) as Hp;
    unfold Z.to_int, DecimalString.NilZero.string_of_int,
      DecimalString.NilZero.string_of_uint,
      DecimalString.NilEmpty.string_of_int;
    destruct (Pos.to_uint p) as [|d|d|d|d|d|d|d|d|d|d] eqn:E;
    try congruence.
  all: rewrite ?int_of_str_digits, ?int_of_str_minus_digits by discriminate.
  all: rewrite Hp; reflexivity.
Qed.

(** ** [unique] and the order of first occurrence *)

Lemma mem_In (x : string) (l : list string) :
  existsb (String.eqb x) l = true <-> In x l.
Proof.
  rewrite existsb_exists. split.
  - intros [a [Ha E]]. apply String.eqb_eq in E. subst a. exact Ha.
  - intros H. exists x. split; [exact H | apply String.eqb_refl].
Qed.

Lemma mem_not_In (x : string) (l : list string) :
  existsb (String.eqb x) l = false <-> ~ In x l.
Proof.
  rewrite <- mem_In. destruct (existsb (String.eqb x) l); intuition congruence.
Qed.

Lemma unique_from_snoc (seen l : list string) (x : string) :
  unique_from seen (l ++ [x])
  = unique_from seen l
    ++ (if (existsb (String.eqb x) seen || existsb (String.eqb x) l)%bool
        then [] else [x]).
Proof.
  revert seen. induction l as [|a l IH]; intros seen; simpl.
  - rewrite orb_false_r. destruct (existsb (String.eqb x) seen); reflexivity.
  - destruct (existsb (String.eqb a) seen) eqn:Ea.
    + rewrite IH. destruct (String.eqb_spec x a) as [->|Hxa]; simpl.
      * rewrite Ea. reflexivity.
      * reflexivity.
    + rewrite IH. simpl.
      destruct (String.eqb x a), (existsb (String.eqb x) seen),
        (existsb (String.eqb x) l); reflexivity.
Qed.

Lemma unique_snoc (l : list string) (x : string) :
  unique (l ++ [x])
  = if existsb (String.eqb x) l then unique l else unique l ++ [x].
Proof.
  unfold unique. rewrite unique_from_snoc. simpl.
  destruct (existsb (String.eqb x) l); [apply app_nil_r | reflexivity].
Qed.

Lemma unique_In (l : list string) (x : string) : In x (unique l) <-> In x l.
Proof.
  induction l as [|a l IH] using rev_ind; [reflexivity|].
  rewrite unique_snoc.
  destruct (existsb (String.eqb a) l) eqn:E.
  - apply mem_In in E. rewrite in_app_iff, IH. simpl. intuition congruence.
  - rewrite !in_app_iff, IH. reflexivity.
Qed.

Lemma unique_NoDup (l : list string) : NoDup (unique l).
Proof.
  induction l as [|a l IH] using rev_ind; [constructor|].
  rewrite unique_snoc.
  destruct (existsb (String.eqb a) l) eqn:E; [exact IH|].
  apply mem_not_In in E.
  apply NoDup_app; repeat split.
  - exact IH.
  - constructor; [intros [] | constructor].
  - intros x Hx [Hxa|[]]. subst x. apply E, unique_In, Hx.
Qed.

Lemma index_lt (x : string) (l : list string) :
  In x l -> (index x l < List.length l)%nat.
Proof.
  induction l as [|a l IH]; simpl; [intros []|].
  intros H. destruct (String.eqb_spec x a) as [->|Hne]; [lia|].
  destruct H as [->|H]; [congruence|]. apply IH in H. lia.
Qed.

Lemma index_app_In (x : string) (l l' : list string) :
  In x l -> index x (l ++ l') = index x l.
Proof.
  induction l as [|a l IH]; simpl; [intros []|].
  intros H. destruct (String.eqb_spec x a) as [->|Hne]; [reflexivity|].
  destruct H as [->|H]; [congruence|]. rewrite IH by exact H. reflexivity.
Qed.

Lemma index_snoc_new (x : string) (l : list string) :
  ~ In x l -> index x (l ++ [x]) = List.length l.
Proof.
  induction l as [|a l IH]; simpl; intros H.
  - rewrite String.eqb_refl. reflexivity.
  - destruct (String.eqb_spec x a) as [->|Hne]; [tauto|].
    rewrite IH by tauto. reflexivity.
Qed.

Lemma StronglySorted_snoc (A : Type) (R : A -> A -> Prop) (l : list A) (x : A) :
  StronglySorted R l -> Forall (fun a => R a x) l ->
  StronglySorted R (l ++ [x]).
Proof.
  induction l as [|a l IH]; simpl; intros Hs Hf.
  - constructor; constructor.
  - apply StronglySorted_inv in Hs. destruct Hs as [Hs Ha].
    inversion Hf; subst. constructor.
    + apply IH; assumption.
    + apply Forall_app. split; [exact Ha | constructor; [assumption | constructor]].
Qed.

Lemma StronglySorted_weaken (A : Type) (R R' : A -> A -> Prop) (l : list A) :
  (forall a b, In a l -> In b l -> R a b -> R' a b) ->
  StronglySorted R l -> StronglySorted R' l.
Proof.
  induction l as [|a l IH]; intros H Hs; [constructor|].
  apply StronglySorted_inv in Hs. destruct Hs as [Hs Ha].
  constructor.
  - apply IH; [|exact Hs]. intros; apply H; simpl; auto.
  - rewrite Forall_forall in *. intros b Hb.
    apply H; simpl; auto.
Qed.

(** [unique] lists the distinct values in the order of first occurrence. *)
Lemma unique_first_occurrence (l : list string) :
  first_occurrence_order l (unique l).
Proof.
  split; [apply unique_NoDup|]. split; [intros x; apply unique_In|].
  induction l as [|a l IH] using rev_ind; [constructor|].
  rewrite unique_snoc.
  assert (Hw : StronglySorted
                 (fun a0 b => (index a0 (l ++ [a]) < index b (l ++ [a]))%nat)
                 (unique l)).
  { apply StronglySorted_weaken with (2 := IH). intros x z Hx Hz Hlt.
    rewrite !index_app_In by (apply unique_In; assumption). exact Hlt. }
  destruct (existsb (String.eqb a) l) eqn:E; [exact Hw|].
  apply mem_not_In in E.
  apply StronglySorted_snoc; [exact Hw|].
  rewrite Forall_forall. intros x Hx. apply (proj1 (unique_In l x)) in Hx.
  rewrite index_app_In by exact Hx. rewrite index_snoc_new by exact E.
  apply index_lt, Hx.
Qed.

(** The order of first occurrence determines the list. *)
Lemma StronglySorted_same_elements (A : Type) (R : A -> A -> Prop)
  (l1 l2 : list A) :
  (forall a b, R a b -> R b a -> False) ->
  (forall a, R a a -> False) ->
  StronglySorted R l1 -> StronglySorted R l2 ->
  (forall x, In x l1 <-> In x l2) -> l1 = l2.
Proof.
  intros Hasym Hirr. revert l2.
  induction l1 as [|a t1 IH]; intros [|b t2] H1 H2 Hin.
  - reflexivity.
  - exfalso. apply (proj2 (Hin b)). left; reflexivity.
  - exfalso. apply (proj1 (Hin a)). left; reflexivity.
  - apply StronglySorted_inv in H1. destruct H1 as [H1 Ha].
    apply StronglySorted_inv in H2. destruct H2 as [H2 Hb].
    rewrite Forall_forall in Ha, Hb.
    assert (Hab : a = b).
    { destruct (proj1 (Hin a) (or_introl eq_refl)) as [E|Hat2]; [auto|].
      destruct (proj2 (Hin b) (or_introl eq_refl)) as [E|Hbt1]; [auto|].
      exfalso. apply (Hasym a b); auto. }
    subst b. f_equal. apply IH; [exact H1 | exact H2 |].
    intros x. split; intros Hx.
    + destruct (proj1 (Hin x) (or_intror Hx)) as [E|H]; [|exact H].
      subst x. exfalso. apply (Hirr a). apply Ha, Hx.
    + destruct (proj2 (Hin x) (or_intror Hx)) as [E|H]; [|exact H].
      subst x. exfalso. apply (Hirr a). apply Hb, Hx.
Qed.

Lemma first_occurrence_order_unique (l ks : list string) :
  first_occurrence_order l ks -> ks = unique l.
Proof.
  intros [_ [Hin Hs]].
  destruct (unique_first_occurrence l) as [_ [Hin' Hs']].
  apply StronglySorted_same_elements with (3 := Hs) (4 := Hs').
  - intros; lia.
  - intros; lia.
  - intros x. rewrite Hin, Hin'. reflexivity.
Qed.

(** ** [groupby] *)

Lemma mem_unique (x : string) (l : list string) :
  existsb (String.eqb x) (unique l) = existsb (String.eqb x) l.
Proof.
  destruct (existsb (String.eqb x) l) eqn:E.
  - apply mem_In, unique_In, mem_In, E.
  - apply mem_not_In. rewrite unique_In. apply mem_not_In, E.
Qed.

Lemma group_insert_spec (f : string -> list Q) (ks : list string)
  (k : string) (v : Q) :
  NoDup ks -> (~ In k ks -> f k = []) ->
  group_insert k v (map (fun k' => (k', f k')) ks)
  = map (fun k' => (k', f k' ++ (if String.eqb k k' then [v] else [])))
        (if existsb (String.eqb k) ks then ks else ks ++ [k]).
Proof.
  induction ks as [|k' ks IH]; intros Hnd Hk.
  - simpl. rewrite String.eqb_refl, Hk by (intros []). reflexivity.
  - inversion Hnd as [|? ? Hnotin Hnd']; subst. simpl.
    destruct (String.eqb_spec k k') as [->|Hne]; simpl.
    + rewrite String.eqb_refl. f_equal.
      apply map_ext_in. intros k'' Hin.
      destruct (String.eqb_spec k' k'') as [->|_]; [tauto|].
      rewrite app_nil_r. reflexivity.
    + rewrite IH;
        [| exact Hnd'
         | intros H; apply Hk; intros [E|E]; [congruence | exact (H E)]].
      destruct (existsb (String.eqb k) ks); simpl;
        destruct (String.eqb_spec k k') as [->|_]; try congruence;
        rewrite app_nil_r; reflexivity.
Qed.

Lemma month_absent (col : row -> Q) (df : DataFrame) (m : string) :
  ~ In m (map Month_name df) ->
  map col (filter (fun r => String.eqb (Month_name r) m) df) = [].
Proof.
  induction df as [|a df IH]; simpl; intros H; [reflexivity|].
  destruct (String.eqb_spec (Month_name a) m) as [E|_]; [tauto|].
  apply IH. tauto.
Qed.

(** The groups of a frame: one per distinct month, in the order of
    [unique], each holding the values of the rows of its month in row
    order. *)
Lemma groupby_spec (col : row -> Q) (df : DataFrame) :
  groupby col df
  = map (fun m => (m, map col (filter (fun r => String.eqb (Month_name r) m) df)))
        (unique (map Month_name df)).
Proof.
  unfold groupby.
  induction df as [|r df IH] using rev_ind; [reflexivity|].
  rewrite fold_left_app. simpl. rewrite IH.
  rewrite group_insert_spec.
  - rewrite map_app. simpl. rewrite unique_snoc, mem_unique.
    apply map_ext. intros m. rewrite filter_app, map_app. simpl.
    rewrite (String.eqb_sym (Month_name r) m).
    destruct (String.eqb m (Month_name r)); reflexivity.
  - apply unique_NoDup.
  - intros Hnot. rewrite unique_In in Hnot.
    apply month_absent, Hnot.
Qed.

Lemma groupby_keys (col : row -> Q) (f : list Q -> Q) (df : DataFrame) :
  map fst (agg f (groupby col df)) = unique (map Month_name df).
Proof.
  unfold agg. rewrite groupby_spec, !map_map. simpl. apply map_id.
Qed.

Lemma select_month (data : DataFrame) (r : string) (y : Z) (m : string) :
  filter (fun rec => String.eqb (Month_name rec) m) (select data r y)
  = records_of data r y m.
Proof.
  unfold select, records_of.
  induction data as [|a data IH]; [reflexivity|]. simpl.
  destruct (String.eqb (Region a) r && Z.eqb (Year a) y)%bool; simpl.
  - destruct (String.eqb (Month_name a) m); [f_equal|]; exact IH.
  - exact IH.
Qed.

Lemma select_In (data : DataFrame) (r : string) (y : Z) (rec : row) :
  In rec (select data r y)
  <-> In rec data /\ Region rec = r /\ Year rec = y.
Proof.
  unfold select. rewrite filter_In, andb_true_iff, String.eqb_eq, Z.eqb_eq.
  reflexivity.
Qed.

(** [compute_info] returns whenever [int(entered_year)] does, and what it
    returns is made of the groups of the selected rows. *)
Lemma compute_info_Ok (data : DataFrame) (r : string) (yv : pyval) (y : Z) :
  py_int yv = Ok y ->
  compute_info data r yv
  = Ok (let df := select data r y in
        let area := agg Num.mean (groupby Estimated_fire_area df) in
        let cnt := agg (fun vs => Num.round0 (Num.mean vs)) (groupby Count df) in
        {| avg_fire_area := area;
           total_area := Num.sum (map snd area);
           avg_count_pixels := cnt;
           total_pixels := Num.sum (map snd cnt) |}).
Proof. intros H. unfold compute_info. rewrite H. reflexivity. Qed.

Lemma compute_info_Raise (data : DataFrame) (r : string) (yv : pyval) (e : exn) :
  py_int yv = Raise e -> compute_info data r yv = Raise e.
Proof. intros H. unfold compute_info. rewrite H. reflexivity. Qed.

Lemma compute_info_inv (data : DataFrame) (r : string) (yv : pyval) (i : info) :
  compute_info data r yv = Ok i ->
  exists y, py_int yv = Ok y.
Proof.
  unfold compute_info. destruct (py_int yv) as [y|e]; simpl; intros H.
  - exists y. reflexivity.
  - discriminate.
Qed.

Lemma compute_info_tables (data : DataFrame) (r : string) (yv : pyval)
  (i : info) :
  compute_info data r yv = Ok i ->
  exists y,
    py_int yv = Ok y
    /\ avg_fire_area i
       = map (fun m => (m, Num.mean (map Estimated_fire_area
                                        (records_of data r y m))))
             (unique (map Month_name (select data r y)))
    /\ total_area i = Num.sum (map snd (avg_fire_area i))
    /\ avg_count_pixels i
       = map (fun m => (m, Num.round0 (Num.mean (map Count
                                                    (records_of data r y m)))))
             (unique (map Month_name (select data r y)))
    /\ total_pixels i = Num.sum (map snd (avg_count_pixels i)).
Proof.
  intros H. destruct (compute_info_inv _ _ _ H) as [y Hy].
  exists y. split; [exact Hy|].
  rewrite (compute_info_Ok data r yv Hy) in H. injection H as <-. simpl.
  unfold agg. rewrite !groupby_spec, !map_map. simpl.
  repeat split; apply map_ext; intros m; rewrite select_month; reflexivity.
Qed.

(** ** The claims about [compute_info] *)

(** C1. The [total_pixels] returned by [compute_info] is the sum, over the
    months of the selected records, of the monthly mean pixel count rounded
    to an integer: each mean is rounded first and the rounded values are
    added.  The rounding takes an integer nearest to the mean, and the even
    one when two integers are equally near. *)
Theorem total_pixels_sum_of_rounded_means (data : DataFrame) (r : string)
  (yv : pyval) (i : info) :
  compute_info data r yv = Ok i ->
  exists y,
    py_int yv = Ok y
    /\ (let months := unique (map Month_name (select data r y)) in
        let mean_count m := Num.mean (map Count (records_of data r y m)) in
        map snd (avg_count_pixels i)
        = map (fun m => Num.round0 (mean_count m)) months
        /\ total_pixels i
           = Num.sum (map (fun m => Num.round0 (mean_count m)) months)
        /\ total_pixels i
           == fold_right Qplus 0
                (map (fun m => inject_Z (Num.rint (mean_count m))) months))
    /\ (forall q : Q,
          (forall z : Z,
              Qabs (q - Num.round0 q) <= Qabs (q - inject_Z z))
          /\ (forall z : Z,
                 z <> Num.rint q ->
                 Qabs (q - inject_Z z) == Qabs (q - Num.round0 q) ->
                 Z.even (Num.rint q) = true)).
Proof.
  intros H. destruct (compute_info_tables _ _ _ H) as [y [Hy [_ [_ [Hc Ht]]]]].
  exists y. split; [exact Hy|]. split.
  - simpl. rewrite Ht, Hc, map_map. simpl.
    split; [reflexivity|]. split; [reflexivity|]. apply sum_Qeq.
  - intros q. split; intros z.
    + apply rint_nearest.
    + apply rint_tie_even.
Qed.

Lemma total_pixels_sum_of_rounded_means_witness :
  compute_info halves "NSW" (PyInt 2019)
  = Ok {| avg_fire_area := [("Jan", 2); ("Feb", 2)]; total_area := 4;
          avg_count_pixels := [("Jan", 0); ("Feb", 0)]; total_pixels := 0 |}
  /\ exists y, py_int (PyInt 2019) = Ok y.
Proof.
  split; [reflexivity|].
  destruct (@total_pixels_sum_of_rounded_means halves "NSW" (PyInt 2019) _
              eq_refl) as [y [Hy _]].
  exists y. exact Hy.
Defined.

(** Rounding the sum of the means instead would give another total:
    two monthly means of one half add up to 0 once rounded, while their
    sum 1 rounds to 1. *)
Example rounded_sum_differs :
  exists i,
    compute_info halves "NSW" (PyInt 2019) = Ok i
    /\ total_pixels i = 0
    /\ Num.round0
         (Num.sum (map (fun m => Num.mean (map Count
                                            (records_of halves "NSW" 2019 m)))
                       ["Jan"; "Feb"])) = 1.
Proof. eexists. repeat split. Qed.

(** Ties go to the even integer, upward or downward. *)
Example rint_ties :
  Num.rint (1 # 2) = 0%Z /\ Num.rint (3 # 2) = 2%Z /\ Num.rint (5 # 2) = 2%Z
  /\ Num.rint (- (1 # 2)) = 0%Z /\ Num.rint (- (3 # 2)) = (-2)%Z
  /\ Num.rint (201 # 2) = 100%Z.
Proof. repeat split. Qed.

Lemma fold_right_Qplus_ext (A : Type) (f g : A -> Q) (l : list A) :
  (forall a, f a == g a) ->
  fold_right Qplus 0 (map f l) == fold_right Qplus 0 (map g l).
Proof.
  intros H. induction l as [|a l IH]; simpl; [reflexivity|].
  rewrite IH, (H a). reflexivity.
Qed.

(** C2. The [total_area] returned by [compute_info] is the sum of the value
    column of the [avg_fire_area] table it returns: the monthly means
    themselves are added, each being the sum of the areas of the records
    of its month over their number. *)
Theorem total_area_sum_of_monthly_means (data : DataFrame) (r : string)
  (yv : pyval) (i : info) :
  compute_info data r yv = Ok i ->
  total_area i = Num.sum (map snd (avg_fire_area i))
  /\ total_area i == fold_right Qplus 0 (map snd (avg_fire_area i))
  /\ exists y,
       py_int yv = Ok y
       /\ total_area i
          == fold_right Qplus 0
               (map (fun m =>
                       fold_right Qplus 0
                         (map Estimated_fire_area (records_of data r y m))
                       / inject_Z (Z.of_nat
                                     (List.length (records_of data r y m))))
                    (unique (map Month_name (select data r y)))).
Proof.
  intros H. destruct (compute_info_tables _ _ _ H) as [y [Hy [Ha [Ht _]]]].
  split; [exact Ht|]. split; [rewrite Ht; apply sum_Qeq|].
  exists y. split; [exact Hy|].
  rewrite Ht, sum_Qeq, Ha, map_map. simpl.
  apply fold_right_Qplus_ext. intros m.
  rewrite mean_Qeq, length_map. reflexivity.
Qed.

Lemma total_area_sum_of_monthly_means_witness :
  compute_info scenario "NSW" (PyStr "2019") = Ok scenario_info
  /\ total_area scenario_info = Num.sum (map snd (avg_fire_area scenario_info)).
Proof.
  split; [reflexivity|].
  apply (proj1 (@total_area_sum_of_monthly_means scenario "NSW" (PyStr "2019")
                  scenario_info eq_refl)).
Defined.

(** On the scenario the total 20 is neither the sum 35 of the three
    selected areas nor their mean 35/3. *)
Example total_area_not_from_raw_records :
  exists i,
    compute_info scenario "NSW" (PyStr "2019") = Ok i
    /\ total_area i = 20
    /\ Num.sum (map Estimated_fire_area (select scenario "NSW" 2019)) = 35
    /\ Num.mean (map Estimated_fire_area (select scenario "NSW" 2019))
       = 35 # 3.
Proof. eexists. repeat split. Qed.

(** C3. In both tables returned by [compute_info] the month names stand in
    the order in which the distinct month names first occur in the
    selected records. *)
Theorem months_in_first_occurrence_order (data : DataFrame) (r : string)
  (yv : pyval) (i : info) :
  compute_info data r yv = Ok i ->
  exists y,
    py_int yv = Ok y
    /\ first_occurrence_order (map Month_name (select data r y))
         (map fst (avg_fire_area i))
    /\ first_occurrence_order (map Month_name (select data r y))
         (map fst (avg_count_pixels i)).
Proof.
  intros H. destruct (compute_info_tables _ _ _ H) as [y [Hy [Ha [_ [Hc _]]]]].
  exists y. split; [exact Hy|].
  rewrite Ha, Hc, !map_map. simpl. rewrite map_id.
  split; apply unique_first_occurrence.
Qed.

Lemma months_in_first_occurrence_order_witness :
  compute_info scenario "NSW" (PyStr "2019") = Ok scenario_info
  /\ exists y,
       py_int (PyStr "2019") = Ok y
       /\ first_occurrence_order (map Month_name (select scenario "NSW" y))
            (map fst (avg_fire_area scenario_info))
       /\ first_occurrence_order (map Month_name (select scenario "NSW" y))
            (map fst (avg_count_pixels scenario_info)).
Proof.
  split; [reflexivity|].
  apply (@months_in_first_occurrence_order scenario "NSW" (PyStr "2019")
           scenario_info eq_refl).
Defined.

(** The order is that of the rows, neither that of the calendar nor that
    of the alphabet: March, then January, then February. *)
Example months_of_shuffled :
  exists i,
    compute_info shuffled "NSW" (PyInt 2019) = Ok i
    /\ map fst (avg_fire_area i) = ["Mar"; "Jan"; "Feb"]
    /\ map fst (avg_count_pixels i) = ["Mar"; "Jan"; "Feb"].
Proof. eexists. repeat split. Qed.

Lemma records_of_In (data : DataFrame) (r : string) (y : Z) (m : string)
  (rec : row) :
  In rec (records_of data r y m)
  <-> In rec data /\ Region rec = r /\ Year rec = y /\ Month_name rec = m.
Proof.
  unfold records_of.
  rewrite filter_In, !andb_true_iff, !String.eqb_eq, Z.eqb_eq. tauto.
Qed.

Lemma select_skip (d1 d2 : DataFrame) (x : row) (r : string) (y : Z) :
  Region x <> r \/ Year x <> y ->
  select (d1 ++ x :: d2) r y = select (d1 ++ d2) r y.
Proof.
  intros Hx. unfold select. rewrite !filter_app. simpl.
  destruct (String.eqb_spec (Region x) r) as [Er|_]; simpl; [|reflexivity].
  destruct (Z.eqb_spec (Year x) y) as [Ey|_]; [|reflexivity].
  tauto.
Qed.

(** C4. [compute_info] aggregates the records whose region is the selected
    one and whose year is the integer value of the selected year, and no
    other: a month is in the tables exactly when such a record has it, each
    monthly value is computed from exactly the records of that region, year
    and month, and a record of another region or year can be dropped from
    the dataset without changing anything returned.  A year written in
    decimal digits selects what the integer selects. *)
Theorem aggregates_exactly_the_selected_records (data : DataFrame)
  (r : string) (yv : pyval) (i : info) :
  compute_info data r yv = Ok i ->
  exists y,
    py_int yv = Ok y
    /\ (forall m,
          In m (map fst (avg_fire_area i))
          <-> exists rec, In rec data /\ Region rec = r /\ Year rec = y
                          /\ Month_name rec = m)
    /\ map fst (avg_count_pixels i) = map fst (avg_fire_area i)
    /\ (forall m v,
          In (m, v) (avg_fire_area i) ->
          v = Num.mean (map Estimated_fire_area (records_of data r y m)))
    /\ (forall m v,
          In (m, v) (avg_count_pixels i) ->
          v = Num.round0 (Num.mean (map Count (records_of data r y m))))
    /\ (forall m rec,
          In rec (records_of data r y m)
          <-> In rec data /\ Region rec = r /\ Year rec = y
              /\ Month_name rec = m)
    /\ (forall d1 x d2,
          data = d1 ++ x :: d2 ->
          Region x <> r \/ Year x <> y ->
          compute_info (d1 ++ d2) r yv = Ok i)
    /\ (forall z : Z,
          compute_info data r (PyStr (str_of_Z z))
          = compute_info data r (PyInt z)).
Proof.
  intros H. destruct (compute_info_tables _ _ _ H) as [y [Hy [Ha [_ [Hc _]]]]].
  exists y. split; [exact Hy|].
  split; [|split; [|split; [|split; [|split; [|split]]]]].
  - intros m. rewrite Ha, map_map, map_id, unique_In, in_map_iff. split.
    + intros [rec [Hm Hin]]. apply select_In in Hin. exists rec. tauto.
    + intros [rec [Hin [Hr [Hyr Hm]]]]. exists rec. split; [exact Hm|].
      apply select_In. tauto.
  - rewrite Ha, Hc, !map_map. reflexivity.
  - intros m v Hin. rewrite Ha in Hin. apply in_map_iff in Hin.
    destruct Hin as [m' [E _]]. injection E as <- <-. reflexivity.
  - intros m v Hin. rewrite Hc in Hin. apply in_map_iff in Hin.
    destruct Hin as [m' [E _]]. injection E as <- <-. reflexivity.
  - intros m rec. apply records_of_In.
  - intros d1 x d2 -> Hx. rewrite <- H.
    rewrite !(compute_info_Ok _ r yv Hy). rewrite (select_skip d1 d2 x Hx).
    reflexivity.
  - intros z. unfold compute_info. rewrite py_int_str_of_Z. reflexivity.
Qed.

Lemma aggregates_exactly_the_selected_records_witness :
  compute_info scenario "NSW" (PyStr "2019") = Ok scenario_info
  /\ exists y,
       py_int (PyStr "2019") = Ok y
       /\ map fst (avg_count_pixels scenario_info)
          = map fst (avg_fire_area scenario_info).
Proof.
  split; [reflexivity|].
  destruct (@aggregates_exactly_the_selected_records scenario "NSW"
              (PyStr "2019") scenario_info eq_refl)
    as [y [Hy [_ [Hk _]]]].
  exists y. split; [exact Hy | exact Hk].
Defined.

(** The year is compared as an integer: the string of the digits selects
    what the integer selects. *)
Example year_string_as_integer :
  compute_info scenario "NSW" (PyStr "2019")
  = compute_info scenario "NSW" (PyInt 2019)
  /\ select scenario "NSW" 2019 = scenario
  /\ select scenario "NSW" 2020 = []
  /\ select scenario "VIC" 2019 = [].
Proof. repeat split. Qed.

(** C5. On the three-row scenario, [compute_info] for NSW and 2019 returns
    the mean areas Jan 15 and Feb 5 with total 20, and the mean counts
    Jan 200 and Feb 50 with total 250. *)
Theorem scenario_nsw_2019 :
  compute_info scenario "NSW" (PyStr "2019")
  = Ok {| avg_fire_area := [("Jan", 15); ("Feb", 5)];
          total_area := 20;
          avg_count_pixels := [("Jan", 200); ("Feb", 50)];
          total_pixels := 250 |}
  /\ compute_info scenario "NSW" (PyInt 2019)
     = compute_info scenario "NSW" (PyStr "2019").
Proof. split; vm_compute; reflexivity. Qed.

Lemma select_empty (data : DataFrame) (r : string) (y : Z) :
  (forall rec, In rec data -> ~ (Region rec = r /\ Year rec = y)) ->
  select data r y = [].
Proof.
  intros Hno. destruct (select data r y) as [|rec l] eqn:E; [reflexivity|].
  exfalso.
  assert (Hin : In rec (select data r y)) by (rewrite E; left; reflexivity).
  apply select_In in Hin. apply (Hno rec); tauto.
Qed.

(** C6. When no record has both the selected region and the selected year,
    [compute_info] raises nothing and returns two empty tables and two
    totals equal to 0. *)
Theorem no_matching_record_empty_result (data : DataFrame) (r : string)
  (yv : pyval) (y : Z) :
  py_int yv = Ok y ->
  (forall rec, In rec data -> ~ (Region rec = r /\ Year rec = y)) ->
  compute_info data r yv = Ok empty_info.
Proof.
  intros Hy Hno. rewrite (compute_info_Ok data r yv Hy).
  rewrite (select_empty data Hno). reflexivity.
Qed.

Lemma no_matching_record_empty_result_witness :
  py_int (PyStr "2020") = Ok 2020%Z
  /\ (forall rec, In rec scenario -> ~ (Region rec = "NSW" /\ Year rec = 2020%Z))
  /\ compute_info scenario "NSW" (PyStr "2020") = Ok empty_info.
Proof.
  assert (Hno : forall rec, In rec scenario
                            -> ~ (Region rec = "NSW" /\ Year rec = 2020%Z)).
  { intros rec [<-|[<-|[<-|[]]]] [_ Hy]; discriminate Hy. }
  split; [reflexivity|]. split; [exact Hno|].
  apply (@no_matching_record_empty_result scenario "NSW" (PyStr "2020") 2020
           eq_refl Hno).
Defined.

(** A region without any record behaves as a year without any record. *)
Example unknown_region_as_unknown_year :
  compute_info scenario "QLD" (PyInt 2019) = Ok empty_info
  /\ compute_info scenario "NSW" (PyInt 2020) = Ok empty_info
  /\ compute_info [] "NSW" (PyInt 2019) = Ok empty_info.
Proof. repeat split. Qed.

(** ** Selections outside the fixed option lists *)

Lemma select_nonempty_tables (data : DataFrame) (r : string) (yv : pyval)
  (y : Z) (i : info) (rec : row) :
  compute_info data r yv = Ok i -> py_int yv = Ok y ->
  In rec data -> Region rec = r -> Year rec = y ->
  avg_fire_area i <> [] /\ avg_count_pixels i <> [].
Proof.
  intros H Hy Hin Hr Hyr.
  destruct (compute_info_tables _ _ _ H) as [y' [Hy' [Ha [_ [Hc _]]]]].
  rewrite Hy in Hy'. injection Hy' as <-.
  assert (Hm : In (Month_name rec)
                 (unique (map Month_name (select data r y)))).
  { apply unique_In, in_map, select_In. tauto. }
  rewrite Ha, Hc.
  destruct (unique (map Month_name (select data r y))); [destruct Hm|].
  split; discriminate.
Qed.

(** C7, as stated, fails: a year that is not an integer literal makes
    [compute_info] raise, and a region outside [REGIONS] (with a year
    outside [YEARS]) that the dataset does hold is aggregated like any
    other. *)
Lemma unvalidated_selection :
  compute_info scenario "NSW" (PyStr "abc") = Raise ValueError
  /\ ~ In "ACT" region_values
  /\ ~ In 1999%Z YEARS
  /\ compute_info unlisted "ACT" (PyInt 1999)
     = Ok {| avg_fire_area := [("Jan", 7)]; total_area := 7;
             avg_count_pixels := [("Jan", 3)]; total_pixels := 3 |}.
Proof.
  split; [reflexivity|]. split; [|split; [|reflexivity]].
  - unfold region_values. simpl. intros H.
    repeat (destruct H as [H|H]; [discriminate H|]). exact H.
  - unfold YEARS. simpl. intros H.
    repeat (destruct H as [H|H]; [discriminate H|]). exact H.
Qed.

(** C7, amended.  For a year that [int] converts, whatever the region and
    whether or not the values are in [REGIONS] and [YEARS], [compute_info]
    raises nothing; its result is empty exactly when no record has that
    region and year, hence for every value outside the lists once the
    dataset holds listed regions and years only.  When [int] raises on the
    year, [compute_info] raises the same exception. *)
Theorem selection_not_validated (data : DataFrame) (r : string) (yv : pyval) :
  (forall y,
      py_int yv = Ok y ->
      exists i,
        compute_info data r yv = Ok i
        /\ (i = empty_info
            <-> forall rec, In rec data -> ~ (Region rec = r /\ Year rec = y))
        /\ ((forall rec, In rec data ->
                         In (Region rec) region_values /\ In (Year rec) YEARS) ->
            ~ In r region_values \/ ~ In y YEARS ->
            i = empty_info))
  /\ (forall e, py_int yv = Raise e -> compute_info data r yv = Raise e).
Proof.
  split.
  - intros y Hy. destruct (compute_info data r yv) as [i|e] eqn:Hi.
    + exists i. split; [reflexivity|].
      assert (Hempty : (forall rec, In rec data
                                    -> ~ (Region rec = r /\ Year rec = y))
                       -> i = empty_info).
      { intros Hno. rewrite (compute_info_Ok data r yv Hy) in Hi.
        rewrite (select_empty data Hno) in Hi. injection Hi as <-.
        reflexivity. }
      split; [split|].
      * intros -> rec Hin [Hr Hyr].
        destruct (@select_nonempty_tables data r yv y empty_info rec
                    Hi Hy Hin Hr Hyr) as [Hne _].
        apply Hne. reflexivity.
      * exact Hempty.
      * intros Hlisted Hout. apply Hempty. intros rec Hin [Hr Hyr].
        destruct (Hlisted rec Hin) as [Hreg Hyear]. subst r y. tauto.
    + rewrite (compute_info_Ok data r yv Hy) in Hi. discriminate Hi.
  - intros e He. apply compute_info_Raise, He.
Qed.

Lemma selection_not_validated_witness :
  py_int (PyStr "1999") = Ok 1999%Z
  /\ py_int PyNone = Raise TypeError
  /\ (exists i, compute_info scenario "ACT" (PyStr "1999") = Ok i)
  /\ compute_info scenario "NSW" PyNone = Raise TypeError.
Proof.
  split; [reflexivity|]. split; [reflexivity|]. split.
  - destruct (proj1 (selection_not_validated scenario "ACT" (PyStr "1999"))
                1999%Z eq_refl) as [i [Hi _]].
    exists i. exact Hi.
  - apply (proj2 (selection_not_validated scenario "NSW" PyNone)
             TypeError eq_refl).
Defined.

(** The years [int] converts and the ones it refuses. *)
Example py_int_examples :
  py_int (PyStr "2019") = Ok 2019%Z
  /\ py_int (PyStr " 2019 ") = Ok 2019%Z
  /\ py_int (PyStr "+2_019") = Ok 2019%Z
  /\ py_int (PyStr "-7") = Ok (-7)%Z
  /\ py_int (PyInt 2019) = Ok 2019%Z
  /\ py_int (PyStr "abc") = Raise ValueError
  /\ py_int (PyStr "") = Raise ValueError
  /\ py_int (PyStr "20 19") = Raise ValueError
  /\ py_int (PyStr "2019.0") = Raise ValueError
  /\ py_int (PyStr "_2019") = Raise ValueError
  /\ py_int PyNone = Raise TypeError.
Proof. repeat split. Qed.

(** Blanks around the digits are dropped; a control character that is no
    blank is refused. *)
Example py_int_blanks :
  py_int (PyStr (String (ascii_of_nat 9) (String (ascii_of_nat 10) "2019")))
  = Ok 2019%Z
  /\ py_int (PyStr (String (ascii_of_nat 28) "2019")) = Raise ValueError
  /\ py_int (PyStr (String (ascii_of_nat 31) "2019")) = Raise ValueError.
Proof. repeat split. Qed.

(** ** The annotation of the bar chart *)

Lemma fold_add_Z_sum (l : list Q) :
  (forall q, In q l -> exists n, q = inject_Z n) ->
  exists n, Num.sum l = inject_Z n.
Proof.
  intros H.
  assert (E : exists zs, l = map inject_Z zs).
  { induction l as [|q l IH]; [exists []; reflexivity|].
    destruct (H q (or_introl eq_refl)) as [n ->].
    destruct IH as [zs ->]; [intros q' Hq'; apply H; right; exact Hq'|].
    exists (n :: zs). reflexivity. }
  destruct E as [zs ->]. rewrite sum_inject_Z. eexists. reflexivity.
Qed.

(** C10. The [total_pixels] returned by [compute_info] is an integer, so the
    [int(total_pixels)] shown by [generate_bar] is the total itself:
    converting it cuts nothing off. *)
Theorem total_pixels_integer (data : DataFrame) (r : string) (yv : pyval)
  (i : info) :
  compute_info data r yv = Ok i ->
  (forall m v, In (m, v) (avg_count_pixels i) -> exists n, v = inject_Z n)
  /\ exists n : Z,
       total_pixels i = inject_Z n
       /\ Num.trunc (total_pixels i) = n
       /\ inject_Z (Num.trunc (total_pixels i)) = total_pixels i
       /\ text (bar_annotation
                  (generate_bar (avg_count_pixels i) (total_pixels i)))
          = ("<b>Total number of pixels</b>: " ++ str_of_Z n
             ++ " pixels")%string.
Proof.
  intros H. destruct (compute_info_tables _ _ _ H) as [y [_ [_ [_ [Hc Ht]]]]].
  assert (Hv : forall m v, In (m, v) (avg_count_pixels i)
                           -> exists n, v = inject_Z n).
  { intros m v Hin. rewrite Hc in Hin. apply in_map_iff in Hin.
    destruct Hin as [m' [E _]]. injection E as _ <-.
    eexists. reflexivity. }
  split; [exact Hv|].
  destruct (@fold_add_Z_sum (map snd (avg_count_pixels i))) as [n Hn].
  { intros q Hq. apply in_map_iff in Hq. destruct Hq as [[m v] [<- Hin]].
    apply (Hv m v Hin). }
  exists n. rewrite Ht, Hn, trunc_inject_Z. simpl.
  rewrite trunc_inject_Z. repeat split.
Qed.

Lemma total_pixels_integer_witness :
  compute_info scenario "NSW" (PyStr "2019") = Ok scenario_info
  /\ exists n : Z, total_pixels scenario_info = inject_Z n.
Proof.
  split; [reflexivity|].
  destruct (@total_pixels_integer scenario "NSW" (PyStr "2019") scenario_info
              eq_refl) as [_ [n [Hn _]]].
  exists n. exact Hn.
Defined.

Example bar_annotation_of_scenario :
  text (bar_annotation (generate_bar (avg_count_pixels scenario_info)
                          (total_pixels scenario_info)))
  = "<b>Total number of pixels</b>: 250 pixels".
Proof. reflexivity. Qed.

(** ** The callbacks *)






(** ** [get_graph] returns whenever [compute_info] does *)

Lemma unique_from_NoDup (seen l : list string) :
  NoDup l -> (forall x, In x l -> ~ In x seen) -> unique_from seen l = l.
Proof.
  revert seen. induction l as [|a l IH]; intros seen Hnd Hs; [reflexivity|].
  inversion Hnd as [|? ? Ha Hnd']; subst. simpl.
  rewrite (proj2 (mem_not_In a seen)) by (apply Hs; left; reflexivity).
  f_equal. apply IH; [exact Hnd'|].
  intros x Hx [E|Hin].
  - subst x. exact (Ha Hx).
  - apply (Hs x); [right; exact Hx | exact Hin].
Qed.

Lemma unique_idempotent (l : list string) : unique (unique l) = unique l.
Proof.
  unfold unique at 1. apply unique_from_NoDup; [apply unique_NoDup|].
  intros x _ [].
Qed.

Lemma generate_donut_of_unique (Pastel : list string) (df : table) (total : Q) :
  NoDup (map fst df) -> exists p, generate_donut Pastel df total = Ok p.
Proof.
  intros Hnd. unfold generate_donut.
  unfold unique at 1. rewrite unique_from_NoDup; [|exact Hnd|intros x _ []].
  rewrite length_map, Nat.eqb_refl. eexists. reflexivity.
Qed.

Lemma get_graph_returns (Pastel : list string) (df : DataFrame) (r : string)
  (yv : pyval) (y : Z) :
  py_int yv = Ok y -> exists p b, get_graph Pastel df r yv = Ok (p, b).
Proof.
  intros Hy. unfold get_graph.
  destruct (compute_info df r yv) as [i|e] eqn:Hi;
    [|rewrite (compute_info_Ok df r yv Hy) in Hi; discriminate Hi].
  simpl.
  destruct (@generate_donut_of_unique Pastel (avg_fire_area i) (total_area i))
    as [p Hp].
  - destruct (compute_info_tables _ _ _ Hi) as [y' [_ [Ha _]]].
    rewrite Ha, map_map. simpl. rewrite map_id. apply unique_NoDup.
  - rewrite Hp. simpl. eexists. eexists. reflexivity.
Qed.

(** ** The page *)

Lemma dequeue_In (c c' : callback) (q : list callback) :
  In c' (dequeue c q) <-> In c' q /\ c' <> c.
Proof.
  unfold dequeue. rewrite filter_In.
  destruct c, c'; simpl; intuition congruence.
Qed.

Lemma reacts_invariant (Pastel : list string) (df : DataFrame)
  (P : page -> Prop) :
  (forall u c, P u -> In c (pending u) -> P (run_callback Pastel df c u)) ->
  forall u u', reacts Pastel df u u' -> P u -> P u'.
Proof.
  intros Hstep u u' H. induction H as [u|u c u' Hc _ IH]; intros Hu.
  - exact Hu.
  - apply IH, Hstep; assumption.
Qed.

Lemma existsb_dequeue_same (c : callback) (q : list callback) :
  existsb (callback_eqb c) (dequeue c q) = false.
Proof.
  induction q as [|a q IH]; [reflexivity|]. simpl.
  destruct c, a; simpl; exact IH.
Qed.

Lemma existsb_dequeue_other (c c' : callback) (q : list callback) :
  c <> c' ->
  existsb (callback_eqb c') (dequeue c q) = existsb (callback_eqb c') q.
Proof.
  intros Hne. induction q as [|a q IH]; [reflexivity|]. simpl.
  destruct c, c', a; simpl; try congruence; exact IH.
Qed.

Lemma settling_step (Pastel : list string) (df : DataFrame) (u0 : page)
  (r : string) (y : pyval) (u : page) (c : callback) :
  settling Pastel df u0 r y u -> In c (pending u) ->
  settling Pastel df u0 r y (run_callback Pastel df c u).
Proof.
  intros [Hr [Hy [Hc Ht]]] Hin.
  assert (Hq : existsb (callback_eqb c) (pending u) = true).
  { apply existsb_exists. exists c. split; [exact Hin|]. destruct c; reflexivity. }
  destruct c; unfold settling, run_callback.
  - rewrite Hq in Hc. rewrite Hr, Hy.
    destruct (get_graph Pastel df r y) as [[p b]|e] eqn:Hg; simpl;
      rewrite existsb_dequeue_same,
        (@existsb_dequeue_other GetGraph GetTitle) by discriminate.
    + split; [reflexivity|]. split; [reflexivity|]. split; [|exact Ht].
      exists p, b. repeat split. exact Hg.
    + split; [reflexivity|]. split; [reflexivity|]. split; [exact Hc | exact Ht].
  - rewrite Hq in Ht. simpl.
    rewrite existsb_dequeue_same,
      (@existsb_dequeue_other GetTitle GetGraph) by discriminate.
    rewrite Hr, Hy.
    split; [reflexivity|]. split; [reflexivity|]. split; [exact Hc|].
    split; reflexivity.
Qed.

Lemma settling_start (Pastel : list string) (df : DataFrame) (u0 : page)
  (r : string) (y : pyval) :
  settling Pastel df u0 r y (select_inputs r y u0).
Proof. repeat split. Qed.

Lemma settling_reacts (Pastel : list string) (df : DataFrame) (u0 : page)
  (r : string) (y : pyval) (u : page) :
  reacts Pastel df (select_inputs r y u0) u -> settling Pastel df u0 r y u.
Proof.
  intros H.
  apply (@reacts_invariant Pastel df (settling Pastel df u0 r y))
    with (u := select_inputs r y u0).
  - intros u1 c H1 Hc. apply settling_step; assumption.
  - exact H.
  - apply settling_start.
Qed.

(** C9, as stated, fails: with the page loaded on its default selection
    (NSW, 2020), the change of the year to 2019 leads through a state whose
    titles name 2019 while the charts still are those of 2020. *)
Lemma titles_ahead_of_charts :
  ~ exists Pastel, atomic_reaction Pastel two_years.
Proof.
  intros [Pastel H].
  destruct (loaded_page Pastel two_years) as [u0|e] eqn:E; [|discriminate E].
  injection E as E.
  assert (Hp : pending u0 = []) by (rewrite <- E; reflexivity).
  specialize (H u0 "NSW" (PyInt 2019)
                (run_callback Pastel two_years GetTitle
                   (select_inputs "NSW" (PyInt 2019) u0)) Hp).
  destruct H as [[_ [Ht _]]|[[p [b [Hg [Hpie _]]]] _]].
  - apply reacts_step with (c := GetTitle); [simpl; tauto | apply reacts_refl].
  - rewrite <- E in Ht. discriminate Ht.
  - rewrite <- E in Hpie. vm_compute in Hg. injection Hg as <- _.
    discriminate Hpie.
Qed.

(** C9, amended.  After a change of the selection the two charts are
    written together by [get_graph] and the two titles together by
    [get_title], as two reactions: every state seen shows both charts as
    before or both anew, and both titles as before or both anew; the state
    with the new titles over the old charts is one of those seen; and once
    no callback is queued the titles are the new ones, and so are the charts
    when [int] converts the selected year. *)
Theorem reaction_per_callback (Pastel : list string) (df : DataFrame)
  (u0 : page) (r : string) (y : pyval) (u : page) :
  reacts Pastel df (select_inputs r y u0) u ->
  (charts_old u0 u \/ charts_new Pastel df r y u)
  /\ (titles_old u0 u \/ titles_new r y u)
  /\ (pending u = [] ->
      titles_new r y u
      /\ (forall n, py_int y = Ok n -> charts_new Pastel df r y u))
  /\ (exists u',
         reacts Pastel df (select_inputs r y u0) u'
         /\ titles_new r y u' /\ charts_old u0 u').
Proof.
  intros H. apply settling_reacts in H.
  destruct H as [_ [_ [Hc Ht]]].
  split; [|split; [|split]].
  - destruct (existsb (callback_eqb GetGraph) (pending u)); [left; exact Hc|].
    destruct (get_graph Pastel df r y); [right | left]; exact Hc.
  - destruct (existsb (callback_eqb GetTitle) (pending u));
      [left | right]; exact Ht.
  - intros Hp. rewrite Hp in Hc, Ht. simpl in Hc, Ht.
    split; [exact Ht|]. intros n Hn.
    destruct (get_graph_returns Pastel df r y Hn) as [p [b Hg]].
    rewrite Hg in Hc. exact Hc.
  - exists (run_callback Pastel df GetTitle (select_inputs r y u0)).
    split; [|repeat split].
    apply reacts_step with (c := GetTitle); [simpl; tauto | apply reacts_refl].
Qed.

(** With the year cleared, [get_graph] raises and writes nothing: once both
    callbacks have run the titles name the year [None] above the charts of
    the selection before. *)
Example cleared_year_keeps_charts (Pastel : list string) :
  exists u0,
    loaded_page Pastel two_years = Ok u0
    /\ (let u := run_callback Pastel two_years GetGraph
                   (run_callback Pastel two_years GetTitle
                      (select_inputs "NSW" PyNone u0)) in
        pending u = []
        /\ pie_title u
           = Some "NSW: Monthly Average Estimated Fire Area in Year None."
        /\ pie_chart u = pie_chart u0
        /\ bar_chart u = bar_chart u0).
Proof. eexists. split; [reflexivity|]. repeat split. Qed.

Lemma reaction_per_callback_witness :
  reacts [] two_years (select_inputs "NSW" (PyInt 2019) blank_page)
    (run_callback [] two_years GetGraph
       (select_inputs "NSW" (PyInt 2019) blank_page))
  /\ exists u',
       reacts [] two_years (select_inputs "NSW" (PyInt 2019) blank_page) u'
       /\ titles_new "NSW" (PyInt 2019) u'.
Proof.
  assert (R : reacts [] two_years
                (select_inputs "NSW" (PyInt 2019) blank_page)
                (run_callback [] two_years GetGraph
                   (select_inputs "NSW" (PyInt 2019) blank_page))).
  { apply reacts_step with (c := GetGraph);
      [simpl; tauto | apply reacts_refl]. }
  split; [exact R|].
  destruct (@reaction_per_callback [] two_years blank_page "NSW"
              (PyInt 2019) _ R) as [_ [_ [_ [u' [Hr [Ht _]]]]]].
  exists u'. split; [exact Hr | exact Ht].
Defined.

(** * Further properties of the code *)

(** ** logic.py: signs, rounding error, appended datasets *)

Lemma fold_right_Qplus_nonneg (l : list Q) :
  (forall q, In q l -> 0 <= q) -> 0 <= fold_right Qplus 0 l.
Proof.
  induction l as [|a l IH]; intros H; simpl; [apply Qle_refl|].
  assert (0 <= a) by (apply H; left; reflexivity).
  assert (0 <= fold_right Qplus 0 l) by (apply IH; intros; apply H; right; assumption).
  lra.
Qed.

Lemma sum_nonneg (l : list Q) :
  (forall q, In q l -> 0 <= q) -> 0 <= Num.sum l.
Proof. intros H. rewrite sum_Qeq. apply fold_right_Qplus_nonneg, H. Qed.

Lemma mean_nonneg (l : list Q) :
  (forall q, In q l -> 0 <= q) -> 0 <= Num.mean l.
Proof.
  intros H. rewrite mean_Qeq. unfold Qdiv.
  apply Qmult_le_0_compat; [apply fold_right_Qplus_nonneg, H|].
  apply Qinv_le_0_compat.
  change 0 with (inject_Z 0). rewrite <- Zle_Qle. lia.
Qed.

Lemma rint_nonneg (q : Q) : 0 <= q -> (0 <= Num.rint q)%Z.
Proof.
  intros H.
  assert (Hf : (0 <= Qfloor q)%Z).
  { rewrite <- (Qfloor_Z 0). apply Qfloor_resp_le. exact H. }
  destruct (rint_cases q) as [[_ E]|[[_ E]|[_ [_ [E|E]]]]]; rewrite E; lia.
Qed.

Lemma round0_nonneg (q : Q) : 0 <= q -> 0 <= Num.round0 q.
Proof.
  intros H. unfold Num.round0. change 0 with (inject_Z 0).
  rewrite <- Zle_Qle. apply rint_nonneg, H.
Qed.

(** X1. When the selected records have no negative area and no negative
    count, no monthly mean, no rounded monthly count and neither total
    returned by [compute_info] is negative. *)
Theorem nonnegative_records_nonnegative_results (data : DataFrame)
  (r : string) (yv : pyval) (y : Z) (i : info) :
  py_int yv = Ok y ->
  compute_info data r yv = Ok i ->
  (forall rec, In rec (select data r y) ->
               0 <= Estimated_fire_area rec /\ 0 <= Count rec) ->
  (forall m v, In (m, v) (avg_fire_area i) -> 0 <= v)
  /\ 0 <= total_area i
  /\ (forall m v, In (m, v) (avg_count_pixels i) -> 0 <= v)
  /\ 0 <= total_pixels i.
Proof.
  intros Hy H Hpos.
  destruct (compute_info_tables _ _ _ H) as [y' [Hy' [Ha [Hta [Hc Htc]]]]].
  rewrite Hy in Hy'. injection Hy' as <-.
  assert (Hrec : forall m rec, In rec (records_of data r y m) ->
                               In rec (select data r y)).
  { intros m rec Hin. apply records_of_In in Hin. apply select_In. tauto. }
  assert (Harea : forall m v, In (m, v) (avg_fire_area i) -> 0 <= v).
  { intros m v Hin. rewrite Ha in Hin. apply in_map_iff in Hin.
    destruct Hin as [m' [E _]]. injection E as <- <-.
    apply mean_nonneg. intros q Hq. apply in_map_iff in Hq.
    destruct Hq as [rec [<- Hin]]. apply (Hpos rec), (Hrec m' rec Hin). }
  assert (Hcnt : forall m v, In (m, v) (avg_count_pixels i) -> 0 <= v).
  { intros m v Hin. rewrite Hc in Hin. apply in_map_iff in Hin.
    destruct Hin as [m' [E _]]. injection E as <- <-.
    apply round0_nonneg, mean_nonneg. intros q Hq. apply in_map_iff in Hq.
    destruct Hq as [rec [<- Hin]]. apply (Hpos rec), (Hrec m' rec Hin). }
  split; [exact Harea|]. split; [|split; [exact Hcnt|]].
  - rewrite Hta. apply sum_nonneg. intros q Hq. apply in_map_iff in Hq.
    destruct Hq as [[m v] [<- Hin]]. apply (Harea m v Hin).
  - rewrite Htc. apply sum_nonneg. intros q Hq. apply in_map_iff in Hq.
    destruct Hq as [[m v] [<- Hin]]. apply (Hcnt m v Hin).
Qed.

Lemma nonnegative_records_nonnegative_results_witness :
  py_int (PyStr "2019") = Ok 2019%Z
  /\ compute_info scenario "NSW" (PyStr "2019") = Ok scenario_info
  /\ 0 <= total_area scenario_info
  /\ 0 <= total_pixels scenario_info.
Proof.
  split; [reflexivity|]. split; [reflexivity|].
  destruct (@nonnegative_records_nonnegative_results scenario "NSW"
              (PyStr "2019") 2019 scenario_info eq_refl eq_refl)
    as [_ [Ha [_ Hc]]].
  - intros rec [<-|[<-|[<-|[]]]]; split; discriminate.
  - split; [exact Ha | exact Hc].
Defined.

Lemma rint_half (q : Q) : Qabs (q - Num.round0 q) <= 1 # 2.
Proof.
  unfold Num.round0.
  destruct (floor_bounds q) as [Hlo Hhi].
  destruct (rint_cases q) as [[Hd Hr]|[[Hd Hr]|[Hd [_ [Hr|Hr]]]]];
    rewrite Hr; try rewrite inject_Z_plus; change (inject_Z 1) with 1;
    apply Qabs_case; intros; lra.
Qed.

Lemma sum_rounding_error (A : Type) (f : A -> Q) (l : list A) :
  Qabs (fold_right Qplus 0 (map (fun a => Num.round0 (f a)) l)
        - fold_right Qplus 0 (map f l))
  <= inject_Z (Z.of_nat (List.length l)) * (1 # 2).
Proof.
  induction l as [|a l IH].
  - apply Qabs_Qle_condition. cbn [map fold_right List.length Z.of_nat].
    change (inject_Z 0) with 0. split; lra.
  - cbn [map fold_right List.length]. rewrite Nat2Z.inj_succ.
    unfold Z.succ. rewrite inject_Z_plus. change (inject_Z 1) with 1.
    pose proof (rint_half (f a)) as Ha.
    apply Qabs_Qle_condition in IH. apply Qabs_Qle_condition in Ha.
    apply Qabs_Qle_condition. destruct IH, Ha. split; lra.
Qed.

(** X2. The [total_pixels] returned by [compute_info] differs from the sum
    of the unrounded monthly mean counts by at most half a pixel per month
    of the table. *)
Theorem total_pixels_rounding_error (data : DataFrame) (r : string)
  (yv : pyval) (y : Z) (i : info) :
  py_int yv = Ok y ->
  compute_info data r yv = Ok i ->
  Qabs (total_pixels i
        - fold_right Qplus 0
            (map (fun m => Num.mean (map Count (records_of data r y m)))
                 (map fst (avg_count_pixels i))))
  <= inject_Z (Z.of_nat (List.length (avg_count_pixels i))) * (1 # 2).
Proof.
  intros Hy H.
  destruct (compute_info_tables _ _ _ H) as [y' [Hy' [_ [_ [Hc Htc]]]]].
  rewrite Hy in Hy'. injection Hy' as <-.
  rewrite Htc, sum_Qeq, Hc, !map_map, length_map. simpl.
  apply (sum_rounding_error
           (fun m => Num.mean (map Count (records_of data r y m)))).
Qed.

Lemma total_pixels_rounding_error_witness :
  py_int (PyInt 2019) = Ok 2019%Z
  /\ (exists i, compute_info halves "NSW" (PyInt 2019) = Ok i
                /\ Qabs (total_pixels i
                         - fold_right Qplus 0
                             (map (fun m => Num.mean
                                              (map Count
                                                 (records_of halves "NSW" 2019 m)))
                                  (map fst (avg_count_pixels i))))
                   <= inject_Z (Z.of_nat (List.length (avg_count_pixels i)))
                      * (1 # 2)).
Proof.
  split; [reflexivity|]. eexists. split; [reflexivity|].
  apply (@total_pixels_rounding_error halves "NSW" (PyInt 2019) 2019 _
           eq_refl eq_refl).
Defined.

Lemma filter_andb (A : Type) (p q : A -> bool) (l : list A) :
  filter p (filter q l) = filter (fun a => (q a && p a)%bool) l.
Proof.
  induction l as [|a l IH]; [reflexivity|]. simpl.
  destruct (q a); simpl; [destruct (p a)|]; rewrite IH; reflexivity.
Qed.

Lemma filter_all (A : Type) (p : A -> bool) (l : list A) :
  (forall a, In a l -> p a = true) -> filter p l = l.
Proof.
  induction l as [|a l IH]; intros H; [reflexivity|]. simpl.
  rewrite (H a (or_introl eq_refl)), IH; [reflexivity|].
  intros b Hb. apply H. right. exact Hb.
Qed.

Lemma filter_none (A : Type) (p : A -> bool) (l : list A) :
  (forall a, In a l -> p a = false) -> filter p l = [].
Proof.
  induction l as [|a l IH]; intros H; [reflexivity|]. simpl.
  rewrite (H a (or_introl eq_refl)). apply IH.
  intros b Hb. apply H. right. exact Hb.
Qed.

(** What [unique_from] keeps of a list are the values of [unique] that
    were not seen before. *)
Lemma unique_from_filter (seen l : list string) :
  unique_from seen l
  = filter (fun x => negb (existsb (String.eqb x) seen)) (unique l).
Proof.
  revert seen. induction l as [|x l IH]; intros seen; [reflexivity|].
  unfold unique. simpl.
  rewrite (IH [x]), filter_andb.
  destruct (existsb (String.eqb x) seen) eqn:Ex; simpl.
  - rewrite IH. apply filter_ext_in. intros a _. simpl.
    rewrite orb_false_r.
    destruct (String.eqb_spec a x) as [->|_]; simpl; [|reflexivity].
    rewrite Ex. reflexivity.
  - rewrite IH. f_equal. apply filter_ext. intros a. simpl.
    rewrite orb_false_r. destruct (String.eqb a x); reflexivity.
Qed.

Lemma unique_app (l1 l2 : list string) :
  unique (l1 ++ l2)
  = unique l1
    ++ filter (fun x => negb (existsb (String.eqb x) l1)) (unique l2).
Proof.
  induction l2 as [|x l2 IH] using rev_ind.
  - rewrite !app_nil_r. reflexivity.
  - rewrite app_assoc, !unique_snoc, existsb_app, IH.
    destruct (existsb (String.eqb x) l2); simpl.
    + rewrite orb_true_r. reflexivity.
    + rewrite orb_false_r, filter_app. simpl.
      destruct (existsb (String.eqb x) l1); simpl.
      * rewrite app_nil_r. reflexivity.
      * rewrite app_assoc. reflexivity.
Qed.

Lemma records_of_app (d1 d2 : DataFrame) (r : string) (y : Z) (m : string) :
  records_of (d1 ++ d2) r y m = records_of d1 r y m ++ records_of d2 r y m.
Proof. unfold records_of. apply filter_app. Qed.

Lemma records_of_absent (data : DataFrame) (r : string) (y : Z) (m : string) :
  ~ In m (map Month_name (select data r y)) -> records_of data r y m = [].
Proof.
  intros H. rewrite <- select_month. apply filter_none.
  intros rec Hin. apply String.eqb_neq. intros E. apply H.
  apply in_map_iff. exists rec. split; assumption.
Qed.

(** X3. Rows appended to the dataset never reorder the months already in
    the tables: the months of the longer dataset are those of the first
    part followed by the new months of the appended part; each value is
    computed from the records of its month pooled from both parts; and
    when the two parts share no month, each table is the table of the
    first part followed by the table of the second. *)
Theorem compute_info_appended (d1 d2 : DataFrame) (r : string) (yv : pyval)
  (y : Z) (i1 i2 i : info) :
  py_int yv = Ok y ->
  compute_info d1 r yv = Ok i1 ->
  compute_info d2 r yv = Ok i2 ->
  compute_info (d1 ++ d2) r yv = Ok i ->
  map fst (avg_fire_area i)
  = map fst (avg_fire_area i1)
    ++ filter (fun m => negb (existsb (String.eqb m)
                                (map fst (avg_fire_area i1))))
         (map fst (avg_fire_area i2))
  /\ map fst (avg_count_pixels i) = map fst (avg_fire_area i)
  /\ (forall m v,
         In (m, v) (avg_fire_area i) ->
         v = Num.mean (map Estimated_fire_area
                         (records_of d1 r y m ++ records_of d2 r y m)))
  /\ (forall m v,
         In (m, v) (avg_count_pixels i) ->
         v = Num.round0 (Num.mean (map Count
                                     (records_of d1 r y m
                                      ++ records_of d2 r y m))))
  /\ ((forall m, In m (map fst (avg_fire_area i1)) ->
                 ~ In m (map fst (avg_fire_area i2))) ->
      avg_fire_area i = avg_fire_area i1 ++ avg_fire_area i2
      /\ avg_count_pixels i = avg_count_pixels i1 ++ avg_count_pixels i2).
Proof.
  intros Hy H1 H2 H.
  destruct (compute_info_tables _ _ _ H1) as [y1 [Hy1 [Ha1 [_ [Hc1 _]]]]].
  destruct (compute_info_tables _ _ _ H2) as [y2 [Hy2 [Ha2 [_ [Hc2 _]]]]].
  destruct (compute_info_tables _ _ _ H) as [y' [Hy' [Ha [_ [Hc _]]]]].
  rewrite Hy in Hy1, Hy2, Hy'.
  injection Hy1 as <-. injection Hy2 as <-. injection Hy' as <-.
  assert (Hsel : select (d1 ++ d2) r y = select d1 r y ++ select d2 r y)
    by apply filter_app.
  assert (K1 : map fst (avg_fire_area i1)
               = unique (map Month_name (select d1 r y)))
    by (rewrite Ha1, map_map; apply map_id).
  assert (K2 : map fst (avg_fire_area i2)
               = unique (map Month_name (select d2 r y)))
    by (rewrite Ha2, map_map; apply map_id).
  assert (Hmonths : unique (map Month_name (select (d1 ++ d2) r y))
                    = unique (map Month_name (select d1 r y))
                      ++ filter (fun m => negb (existsb (String.eqb m)
                                                  (map fst (avg_fire_area i1))))
                           (unique (map Month_name (select d2 r y)))).
  { rewrite Hsel, map_app, unique_app. f_equal.
    apply filter_ext. intros m. rewrite K1, mem_unique. reflexivity. }
  split; [|split; [|split; [|split]]].
  - rewrite Ha at 1. rewrite map_map. simpl. rewrite map_id, Hmonths, K1, K2.
    rewrite <- K1. reflexivity.
  - rewrite Ha, Hc, !map_map. reflexivity.
  - intros m v Hin. rewrite Ha in Hin. apply in_map_iff in Hin.
    destruct Hin as [m' [E _]]. injection E as <- <-.
    rewrite records_of_app. reflexivity.
  - intros m v Hin. rewrite Hc in Hin. apply in_map_iff in Hin.
    destruct Hin as [m' [E _]]. injection E as <- <-.
    rewrite records_of_app. reflexivity.
  - intros Hdis.
    assert (Hall : filter (fun m => negb (existsb (String.eqb m)
                                            (map fst (avg_fire_area i1))))
                     (unique (map Month_name (select d2 r y)))
                   = unique (map Month_name (select d2 r y))).
    { apply filter_all. intros m Hm. apply negb_true_iff, mem_not_In.
      intros Hin. apply (Hdis m Hin). rewrite K2. exact Hm. }
    rewrite Hall in Hmonths.
    assert (Hleft : forall m, In m (unique (map Month_name (select d1 r y))) ->
                              records_of (d1 ++ d2) r y m = records_of d1 r y m).
    { intros m Hm. rewrite records_of_app, (@records_of_absent d2).
      - apply app_nil_r.
      - intros Hin. apply (Hdis m); [rewrite K1; exact Hm|].
        rewrite K2. apply unique_In. exact Hin. }
    assert (Hright : forall m, In m (unique (map Month_name (select d2 r y))) ->
                               records_of (d1 ++ d2) r y m = records_of d2 r y m).
    { intros m Hm. rewrite records_of_app, (@records_of_absent d1).
      - reflexivity.
      - intros Hin. apply (Hdis m); [|rewrite K2; exact Hm].
        rewrite K1. apply unique_In. exact Hin. }
    rewrite Ha, Hc, Ha1, Ha2, Hc1, Hc2, Hmonths, !map_app.
    split; f_equal; apply map_ext_in; intros m Hm;
      rewrite ?(Hleft m Hm), ?(Hright m Hm); reflexivity.
Qed.

Lemma compute_info_appended_witness :
  py_int (PyInt 2019) = Ok 2019%Z
  /\ compute_info scenario "NSW" (PyInt 2019) = Ok scenario_info
  /\ (exists i2 i,
         compute_info [mk "NSW" 2019 "Mar" 4 10; mk "NSW" 2019 "Jan" 30 500]
           "NSW" (PyInt 2019) = Ok i2
         /\ compute_info
              (scenario
               ++ [mk "NSW" 2019 "Mar" 4 10; mk "NSW" 2019 "Jan" 30 500])
              "NSW" (PyInt 2019) = Ok i
         /\ map fst (avg_fire_area i)
            = map fst (avg_fire_area scenario_info)
              ++ filter (fun m => negb (existsb (String.eqb m)
                                          (map fst (avg_fire_area scenario_info))))
                   (map fst (avg_fire_area i2))).
Proof.
  split; [reflexivity|]. split; [reflexivity|].
  eexists. eexists. split; [reflexivity|]. split; [reflexivity|].
  apply (@compute_info_appended scenario
           [mk "NSW" 2019 "Mar" 4 10; mk "NSW" 2019 "Jan" 30 500]
           "NSW" (PyInt 2019) 2019 scenario_info _ _
           eq_refl eq_refl eq_refl eq_refl).
Defined.

(** The months of the scenario stay first when March and January rows are
    appended, and January pools its three records. *)
Example appended_rows :
  exists i,
    compute_info
      (scenario ++ [mk "NSW" 2019 "Mar" 4 10; mk "NSW" 2019 "Jan" 30 500])
      "NSW" (PyInt 2019) = Ok i
    /\ avg_fire_area i = [("Jan", 20); ("Feb", 5); ("Mar", 4)]
    /\ avg_count_pixels i = [("Jan", 300); ("Feb", 50); ("Mar", 10)].
Proof. eexists. repeat split. Qed.

(** ** figures.py: the donut needs distinct months; what the annotations
    show *)

Lemma unique_from_length_le (seen l : list string) :
  (List.length (unique_from seen l) <= List.length l)%nat.
Proof.
  revert seen. induction l as [|x l IH]; intros seen; simpl; [lia|].
  destruct (existsb (String.eqb x) seen); simpl.
  - specialize (IH seen). lia.
  - specialize (IH (x :: seen)). lia.
Qed.

Lemma unique_from_length_eq (seen l : list string) :
  List.length (unique_from seen l) = List.length l ->
  NoDup l /\ forall x, In x l -> ~ In x seen.
Proof.
  revert seen. induction l as [|x l IH]; intros seen; simpl.
  - intros _. split; [constructor | intros x []].
  - destruct (existsb (String.eqb x) seen) eqn:Ex; simpl; intros Hlen.
    + pose proof (unique_from_length_le seen l). lia.
    + apply mem_not_In in Ex.
      destruct (IH (x :: seen)) as [Hnd Hseen]; [lia|].
      split.
      * constructor; [|exact Hnd].
        intros Hin. apply (Hseen x Hin). left. reflexivity.
      * intros a [<-|Ha]; [exact Ex|].
        intros Hin. apply (Hseen a Ha). right. exact Hin.
Qed.

Lemma unique_length_NoDup (l : list string) :
  List.length (unique l) = List.length l <-> NoDup l.
Proof.
  split.
  - intros H. apply (unique_from_length_eq [] l H).
  - intros H. unfold unique.
    rewrite unique_from_NoDup; [reflexivity | exact H | intros x _ []].
Qed.

Lemma combine_fst_snd (A B : Type) (l : list (A * B)) :
  combine (map fst l) (map snd l) = l.
Proof.
  induction l as [|[a b] l IH]; [reflexivity|]. simpl. rewrite IH. reflexivity.
Qed.

(** X4. [generate_donut] returns exactly when the month names of its table
    are distinct; the slices then are the rows of the table in their order,
    label by label and value by value.  On a table that repeats a month it
    raises [ValueError]. *)
Theorem generate_donut_needs_distinct_months (Pastel : list string)
  (df : table) (total : Q) :
  (NoDup (map fst df) ->
   exists p,
     generate_donut Pastel df total = Ok p
     /\ donut_names p = map fst df
     /\ category_orders p = map fst df
     /\ donut_values p = map snd df
     /\ combine (donut_names p) (donut_values p) = df)
  /\ (~ NoDup (map fst df) ->
      generate_donut Pastel df total = Raise ValueError).
Proof.
  split.
  - intros Hnd.
    assert (Hu : unique (map fst df) = map fst df).
    { unfold unique. apply unique_from_NoDup; [exact Hnd | intros x _ []]. }
    unfold generate_donut. rewrite Hu, length_map, Nat.eqb_refl.
    eexists. split; [reflexivity|]. simpl.
    repeat split. apply combine_fst_snd.
  - intros Hdup. unfold generate_donut.
    destruct (Nat.eqb_spec (List.length (unique (map fst df)))
                (List.length df)) as [E|_]; [|reflexivity].
    exfalso. apply Hdup, unique_length_NoDup.
    rewrite E, length_map. reflexivity.
Qed.

Lemma generate_donut_needs_distinct_months_witness :
  NoDup (map fst (avg_fire_area scenario_info))
  /\ ~ NoDup (map fst [("Jan", 1); ("Feb", 2); ("Jan", 3)])
  /\ (exists p, generate_donut [] (avg_fire_area scenario_info) 20 = Ok p
                /\ donut_names p = ["Jan"; "Feb"])
  /\ generate_donut [] [("Jan", 1); ("Feb", 2); ("Jan", 3)] 6
     = Raise ValueError.
Proof.
  assert (H1 : NoDup (map fst (avg_fire_area scenario_info))).
  { simpl. constructor; [intros [E|[]]; discriminate E|].
    constructor; [intros []|constructor]. }
  assert (H2 : ~ NoDup (map fst [("Jan", 1); ("Feb", 2); ("Jan", 3)])).
  { simpl. intros H. inversion H as [|? ? Hnotin _]; subst.
    apply Hnotin. right. left. reflexivity. }
  split; [exact H1|]. split; [exact H2|].
  destruct (generate_donut_needs_distinct_months []
              (avg_fire_area scenario_info) 20) as [Hok _].
  destruct (generate_donut_needs_distinct_months []
              [("Jan", 1); ("Feb", 2); ("Jan", 3)] 6) as [_ Hraise].
  split.
  - destruct (Hok H1) as [p [Hp [Hn _]]]. exists p. split; [exact Hp|exact Hn].
  - exact (Hraise H2).
Defined.

Lemma pad2_two_digits (n : Z) :
  (0 <= n < 100)%Z ->
  String.length (pad2 n) = 2%nat /\ int_of_str (pad2 n) = Some n.
Proof.
  intros Hn.
  assert (Hall : forallb
                   (fun k => ((String.length (pad2 (Z.of_nat k)) =? 2)%nat
                              && match int_of_str (pad2 (Z.of_nat k)) with
                                 | Some z => Z.eqb z (Z.of_nat k)
                                 | None => false
                                 end)%bool)
                   (seq 0 100) = true) by (vm_compute; reflexivity).
  rewrite forallb_forall in Hall.
  specialize (Hall (Z.to_nat n)). rewrite Z2Nat.id in Hall by lia.
  assert (Hin : In (Z.to_nat n) (seq 0 100)) by (apply in_seq; lia).
  apply Hall in Hin. apply andb_true_iff in Hin. destruct Hin as [Hl Hi].
  split; [apply Nat.eqb_eq, Hl|].
  destruct (int_of_str (pad2 n)) as [z|]; [|discriminate Hi].
  apply Z.eqb_eq in Hi. congruence.
Qed.

Lemma int_of_str_of_Z (z : Z) : int_of_str (str_of_Z z) = Some z.
Proof.
  pose proof (py_int_str_of_Z z) as H. unfold py_int in H.
  destruct (int_of_str (str_of_Z z)) as [z'|]; [|discriminate H].
  injection H as ->. reflexivity.
Qed.

Lemma format_2f_parts (q : Q) :
  exists ip fp : Z,
    (0 <= ip)%Z /\ (0 <= fp < 100)%Z
    /\ format_2f q
       = ((match Qcompare q 0 with Lt => "-" | _ => "" end)
          ++ str_of_Z ip ++ "." ++ pad2 fp)%string
    /\ Qabs (Qabs q - (inject_Z ip + inject_Z fp / 100)) <= 1 # 200.
Proof.
  set (c := Num.rint (Qabs q * 100)).
  assert (Hc : (0 <= c)%Z).
  { apply rint_nonneg. pose proof (Qabs_nonneg q). lra. }
  exists (c / 100)%Z, (c mod 100)%Z.
  split; [apply Z.div_pos; lia|]. split; [apply Z.mod_pos_bound; lia|].
  split; [reflexivity|].
  pose proof (rint_half (Qabs q * 100)) as Hr.
  unfold Num.round0 in Hr. fold c in Hr.
  assert (E : inject_Z c
              == 100 * inject_Z (c / 100) + inject_Z (c mod 100)).
  { rewrite (Z.div_mod c 100) at 1 by lia.
    rewrite inject_Z_plus, inject_Z_mult. reflexivity. }
  rewrite E in Hr.
  apply Qabs_Qle_condition in Hr. apply Qabs_Qle_condition.
  unfold Qdiv. change (/ 100) with (1 # 100).
  destruct Hr. split; lra.
Qed.

(** X5. The total written in the hole of the donut is the total rounded to
    two decimals: a minus sign for a negative total, the decimal digits of
    an integer part, a point and exactly two digits, which read back as a
    number within half a hundredth of the magnitude of the total. *)
Theorem donut_total_two_decimals (Pastel : list string) (df : table)
  (total : Q) (p : donut) :
  generate_donut Pastel df total = Ok p ->
  exists ip fp : Z,
    (0 <= ip)%Z /\ (0 <= fp < 100)%Z
    /\ text (donut_annotation p)
       = ("<b>Total</b>:<br>"
          ++ ((match Qcompare total 0 with Lt => "-" | _ => "" end)
              ++ str_of_Z ip ++ "." ++ pad2 fp)
          ++ " km" ++ sup2)%string
    /\ String.length (pad2 fp) = 2%nat
    /\ int_of_str (str_of_Z ip) = Some ip
    /\ int_of_str (pad2 fp) = Some fp
    /\ Qabs (Qabs total - (inject_Z ip + inject_Z fp / 100)) <= 1 # 200.
Proof.
  intros H. unfold generate_donut in H.
  destruct (List.length (unique (map fst df)) =? List.length df)%nat;
    [|discriminate H].
  injection H as <-. simpl.
  destruct (format_2f_parts total) as [ip [fp [Hip [Hfp [Hf Herr]]]]].
  exists ip, fp. rewrite Hf.
  destruct (pad2_two_digits Hfp) as [Hlen Hback].
  repeat split; try assumption; try lia.
  apply int_of_str_of_Z.
Qed.

Lemma donut_total_two_decimals_witness :
  generate_donut [] [("Jan", 1 # 8); ("Feb", 1234567 # 1000)]
    (9877536 # 8000)
  = Ok {| donut_values := [1 # 8; 1234567 # 1000];
          donut_names := ["Jan"; "Feb"];
          category_orders := ["Jan"; "Feb"];
          hole := 2 # 5;
          donut_legend :=
            {| legend_title := "Month"; legend_font_weight := 1000;
               legend_side := "top center"; bordercolor := "black";
               borderwidth := 1; xanchor := "left";
               legend_x := - (3 # 10); legend_y := 1 # 2 |};
          donut_sort := false;
          donut_hovertemplate :=
            ("<b>%{label}:</b><br>%{value:.2f} km" ++ sup2
             ++ "<br>(%{percent:.2%})<extra></extra>")%string;
          marker_colors := [];
          texttemplate := "%{percent:.2%}";
          donut_annotation :=
            {| text := ("<b>Total</b>:<br>1234.69 km" ++ sup2)%string;
               x := 1 # 2; y := 1 # 2; xref := "paper"; yref := "paper";
               showarrow := false |} |}
  /\ exists ip fp : Z,
       Qabs (Qabs (9877536 # 8000) - (inject_Z ip + inject_Z fp / 100))
       <= 1 # 200.
Proof.
  split; [reflexivity|].
  destruct (@donut_total_two_decimals []
              [("Jan", 1 # 8); ("Feb", 1234567 # 1000)] (9877536 # 8000) _
              eq_refl) as [ip [fp [_ [_ [_ [_ [_ [_ H]]]]]]]].
  exists ip, fp. exact H.
Defined.

Lemma trunc_toward_zero (q : Q) :
  (0 <= q -> inject_Z (Num.trunc q) <= q /\ q < inject_Z (Num.trunc q) + 1)
  /\ (q <= 0 -> inject_Z (Num.trunc q) - 1 < q /\ q <= inject_Z (Num.trunc q)).
Proof.
  destruct q as [a b]. unfold Num.trunc. simpl Qnum. simpl Qden.
  pose proof (Z.quot_rem' a (Z.pos b)) as E.
  set (n := Z.quot a (Z.pos b)) in *. set (m := Z.rem a (Z.pos b)) in *.
  split; intros H.
  - assert (Ha : (0 <= a)%Z) by (unfold Qle in H; simpl in H; lia).
    assert (Hm : (0 <= m < Z.pos b)%Z) by (apply Z.rem_bound_pos; lia).
    unfold Qle, Qlt, Qplus, inject_Z. simpl. nia.
  - assert (Ha : (a <= 0)%Z) by (unfold Qle in H; simpl in H; lia).
    assert (Hm : (- Z.pos b < m <= 0)%Z) by (apply Z.rem_bound_pos_neg; lia).
    unfold Qle, Qlt, Qminus, Qplus, Qopp, inject_Z. simpl. nia.
Qed.

(** X6. For a total that is not an integer, the bar chart's annotation
    shows it cut toward zero: the integer written lies between zero and the
    total, less than one away from it. *)
Theorem bar_total_truncated (df : table) (total : Q) :
  text (bar_annotation (generate_bar df total))
  = ("<b>Total number of pixels</b>: " ++ str_of_Z (Num.trunc total)
     ++ " pixels")%string
  /\ int_of_str (str_of_Z (Num.trunc total)) = Some (Num.trunc total)
  /\ (0 <= total ->
      0 <= inject_Z (Num.trunc total) <= total
      /\ total < inject_Z (Num.trunc total) + 1)
  /\ (total <= 0 ->
      total <= inject_Z (Num.trunc total) <= 0
      /\ inject_Z (Num.trunc total) - 1 < total).
Proof.
  split; [reflexivity|]. split; [apply int_of_str_of_Z|].
  destruct (trunc_toward_zero total) as [Hpos Hneg].
  split; intros H.
  - destruct (Hpos H) as [Hle Hlt]. repeat split; try assumption.
    change 0 with (inject_Z 0). rewrite <- Zle_Qle.
    destruct (Z_le_gt_dec 0 (Num.trunc total)) as [Hz|Hz]; [exact Hz|].
    exfalso. assert (inject_Z (Num.trunc total) + 1 <= 0).
    { change 1 with (inject_Z 1). change 0 with (inject_Z 0).
      rewrite <- inject_Z_plus, <- Zle_Qle. lia. }
    lra.
  - destruct (Hneg H) as [Hlt Hle]. repeat split; try assumption.
    change 0 with (inject_Z 0). rewrite <- Zle_Qle.
    destruct (Z_le_gt_dec (Num.trunc total) 0) as [Hz|Hz]; [exact Hz|].
    exfalso. assert (0 <= inject_Z (Num.trunc total) - 1).
    { change 1 with (inject_Z 1). change 0 with (inject_Z 0).
      unfold Qminus. rewrite <- inject_Z_opp, <- inject_Z_plus, <- Zle_Qle.
      lia. }
    lra.
Qed.

Lemma bar_total_truncated_witness :
  0 <= 27 # 10
  /\ - (27 # 10) <= 0
  /\ Num.trunc (27 # 10) = 2%Z
  /\ Num.trunc (- (27 # 10)) = (-2)%Z
  /\ inject_Z (Num.trunc (27 # 10)) <= 27 # 10
  /\ - (27 # 10) <= inject_Z (Num.trunc (- (27 # 10))).
Proof.
  assert (H1 : 0 <= 27 # 10) by (unfold Qle; simpl; lia).
  assert (H2 : - (27 # 10) <= 0) by (unfold Qle; simpl; lia).
  split; [exact H1|]. split; [exact H2|].
  split; [reflexivity|]. split; [reflexivity|].
  destruct (bar_total_truncated [] (27 # 10)) as [_ [_ [Hp _]]].
  destruct (bar_total_truncated [] (- (27 # 10))) as [_ [_ [_ Hn]]].
  split.
  - apply (Hp H1).
  - apply (Hn H2).
Defined.

(** ** callbacks.py: when [get_graph] returns and what it draws *)

(** X7. [get_graph] raises exactly when [int] refuses the selected year,
    and then raises that exception; otherwise it returns the two charts of
    the tables of [compute_info], the donut and the bars showing the same
    months in the same order. *)
Theorem get_graph_raises_as_int (Pastel : list string) (df : DataFrame)
  (r : string) (yv : pyval) :
  (forall y,
      py_int yv = Ok y ->
      exists i p b,
        compute_info df r yv = Ok i
        /\ get_graph Pastel df r yv = Ok (p, b)
        /\ combine (donut_names p) (donut_values p) = avg_fire_area i
        /\ combine (bar_x b) (bar_y b) = avg_count_pixels i
        /\ bar_x b = donut_names p)
  /\ (forall e, py_int yv = Raise e -> get_graph Pastel df r yv = Raise e).
Proof.
  split.
  - intros y Hy. unfold get_graph.
    destruct (compute_info df r yv) as [i|e] eqn:Hi;
      [|rewrite (compute_info_Ok df r yv Hy) in Hi; discriminate Hi].
    destruct (compute_info_tables _ _ _ Hi) as [y' [_ [Ha [_ [Hc _]]]]].
    assert (Hnd : NoDup (map fst (avg_fire_area i))).
    { rewrite Ha, map_map. simpl. rewrite map_id. apply unique_NoDup. }
    assert (Hu : unique (map fst (avg_fire_area i)) = map fst (avg_fire_area i)).
    { unfold unique. apply unique_from_NoDup; [exact Hnd | intros x _ []]. }
    simpl. unfold generate_donut. rewrite Hu, length_map, Nat.eqb_refl. simpl.
    eexists. eexists. eexists. split; [reflexivity|]. split; [reflexivity|].
    simpl. rewrite !combine_fst_snd.
    split; [reflexivity|]. split; [reflexivity|].
    rewrite Ha, Hc, !map_map. reflexivity.
  - intros e He. unfold get_graph.
    rewrite (compute_info_Raise df r yv He). reflexivity.
Qed.

Lemma get_graph_raises_as_int_witness :
  py_int (PyInt 2019) = Ok 2019%Z
  /\ py_int PyNone = Raise TypeError
  /\ (exists p b, get_graph [] scenario "NSW" (PyInt 2019) = Ok (p, b)
                  /\ bar_x b = donut_names p)
  /\ get_graph [] scenario "NSW" PyNone = Raise TypeError.
Proof.
  split; [reflexivity|]. split; [reflexivity|].
  split.
  - destruct (proj1 (get_graph_raises_as_int [] scenario "NSW" (PyInt 2019))
                2019%Z eq_refl) as [i [p [b [_ [Hg [_ [_ Hx]]]]]]].
    exists p, b. split; [exact Hg | exact Hx].
  - apply (proj2 (get_graph_raises_as_int [] scenario "NSW" PyNone)
             TypeError eq_refl).
Defined.

(** X8. For a selection that no record matches, [get_graph] returns a donut
    without slices whose hole reads 0.00 and a bar chart without bars whose
    annotation reads 0 pixels. *)
Theorem get_graph_no_matching_record (Pastel : list string)
  (df : DataFrame) (r : string) (yv : pyval) (y : Z) :
  py_int yv = Ok y ->
  (forall rec, In rec df -> ~ (Region rec = r /\ Year rec = y)) ->
  exists p b,
    get_graph Pastel df r yv = Ok (p, b)
    /\ donut_names p = [] /\ donut_values p = []
    /\ text (donut_annotation p)
       = ("<b>Total</b>:<br>0.00 km" ++ sup2)%string
    /\ bar_x b = [] /\ bar_y b = []
    /\ text (bar_annotation b)
       = "<b>Total number of pixels</b>: 0 pixels".
Proof.
  intros Hy Hno. unfold get_graph.
  rewrite (compute_info_Ok df r yv Hy), (select_empty df Hno).
  eexists. eexists. split; [reflexivity|]. repeat split.
Qed.

Lemma get_graph_no_matching_record_witness :
  py_int (PyInt 2020) = Ok 2020%Z
  /\ (forall rec, In rec scenario -> ~ (Region rec = "NSW" /\ Year rec = 2020%Z))
  /\ exists p b,
       get_graph [] scenario "NSW" (PyInt 2020) = Ok (p, b)
       /\ donut_values p = [] /\ bar_y b = [].
Proof.
  assert (Hno : forall rec, In rec scenario
                            -> ~ (Region rec = "NSW" /\ Year rec = 2020%Z)).
  { intros rec [<-|[<-|[<-|[]]]] [_ Hy]; discriminate Hy. }
  split; [reflexivity|]. split; [exact Hno|].
  destruct (@get_graph_no_matching_record [] scenario "NSW" (PyInt 2020)
              2020 eq_refl Hno) as [p [b [Hg [_ [Hv [_ [_ [Hb _]]]]]]]].
  exists p, b. split; [exact Hg|]. split; [exact Hv | exact Hb].
Defined.

(** ** callbacks.py: the two callbacks on the page *)

Lemma pending_run_callback (Pastel : list string) (df : DataFrame)
  (c : callback) (u : page) :
  pending (run_callback Pastel df c u) = dequeue c (pending u).
Proof.
  destruct c; unfold run_callback; [|reflexivity].
  destruct (get_graph Pastel df (region_items u) (year_items u)) as [[p b]|e];
    reflexivity.
Qed.

Lemma dequeue_comm (c c' : callback) (q : list callback) :
  dequeue c (dequeue c' q) = dequeue c' (dequeue c q).
Proof.
  unfold dequeue. rewrite !filter_andb. apply filter_ext.
  intros a. apply andb_comm.
Qed.

Lemma run_callback_comm (Pastel : list string) (df : DataFrame) (u : page) :
  run_callback Pastel df GetGraph (run_callback Pastel df GetTitle u)
  = run_callback Pastel df GetTitle (run_callback Pastel df GetGraph u).
Proof.
  unfold run_callback. simpl.
  destruct (get_graph Pastel df (region_items u) (year_items u)) as [[p b]|e];
    simpl; rewrite (dequeue_comm GetGraph GetTitle); reflexivity.
Qed.

Lemma reacts_nothing_pending (Pastel : list string) (df : DataFrame)
  (u u' : page) :
  pending u = [] -> reacts Pastel df u u' -> u' = u.
Proof.
  intros Hp H. destruct H as [u|u c u' Hc _]; [reflexivity|].
  rewrite Hp in Hc. destruct Hc.
Qed.

Lemma reacts_one_pending (Pastel : list string) (df : DataFrame)
  (c : callback) (u u' : page) :
  pending u = [c] -> reacts Pastel df u u' ->
  u' = u \/ u' = run_callback Pastel df c u.
Proof.
  intros Hp H. destruct H as [u|u c' u' Hc H]; [left; reflexivity|].
  rewrite Hp in Hc. destruct Hc as [<-|[]]. right.
  apply (reacts_nothing_pending (Pastel := Pastel) (df := df)); [|exact H].
  rewrite pending_run_callback, Hp. destruct c; reflexivity.
Qed.

(** X9. The two callbacks write different outputs, so the order in which
    they run after a change of the selection does not matter: each run
    takes one callback off the queue, running the two in either order
    gives the same page, and every run of the reaction that empties the
    queue ends on that page. *)
Theorem reaction_order_irrelevant (Pastel : list string) (df : DataFrame)
  (u0 : page) (r : string) (y : pyval) (u : page) :
  reacts Pastel df (select_inputs r y u0) u ->
  pending u = [] ->
  u = run_callback Pastel df GetTitle
        (run_callback Pastel df GetGraph (select_inputs r y u0))
  /\ u = run_callback Pastel df GetGraph
           (run_callback Pastel df GetTitle (select_inputs r y u0))
  /\ region_items u = r /\ year_items u = y.
Proof.
  intros H Hp.
  assert (E : u = run_callback Pastel df GetTitle
                    (run_callback Pastel df GetGraph (select_inputs r y u0))).
  { assert (PG : pending (run_callback Pastel df GetGraph
                            (select_inputs r y u0)) = [GetTitle])
      by (rewrite pending_run_callback; reflexivity).
    assert (PT : pending (run_callback Pastel df GetTitle
                            (select_inputs r y u0)) = [GetGraph])
      by (rewrite pending_run_callback; reflexivity).
    inversion H as [u1 E1|u1 c u2 Hc Hrest]; subst.
    - discriminate Hp.
    - destruct Hc as [<-|[<-|[]]].
      + destruct (reacts_one_pending PG Hrest) as [->| ->].
        * rewrite PG in Hp. discriminate Hp.
        * reflexivity.
      + destruct (reacts_one_pending PT Hrest) as [->| ->].
        * rewrite PT in Hp. discriminate Hp.
        * apply run_callback_comm. }
  split; [exact E|]. split; [rewrite run_callback_comm; exact E|].
  rewrite E. unfold run_callback. simpl.
  destruct (get_graph Pastel df r y) as [[p b]|e]; split; reflexivity.
Qed.

Lemma reaction_order_irrelevant_witness :
  reacts [] two_years (select_inputs "NSW" (PyInt 2019) blank_page)
    (run_callback [] two_years GetGraph
       (run_callback [] two_years GetTitle
          (select_inputs "NSW" (PyInt 2019) blank_page)))
  /\ pending (run_callback [] two_years GetGraph
                (run_callback [] two_years GetTitle
                   (select_inputs "NSW" (PyInt 2019) blank_page))) = []
  /\ run_callback [] two_years GetGraph
       (run_callback [] two_years GetTitle
          (select_inputs "NSW" (PyInt 2019) blank_page))
     = run_callback [] two_years GetTitle
         (run_callback [] two_years GetGraph
            (select_inputs "NSW" (PyInt 2019) blank_page)).
Proof.
  assert (R : reacts [] two_years
                (select_inputs "NSW" (PyInt 2019) blank_page)
                (run_callback [] two_years GetGraph
                   (run_callback [] two_years GetTitle
                      (select_inputs "NSW" (PyInt 2019) blank_page)))).
  { apply reacts_step with (c := GetTitle); [simpl; tauto|].
    apply reacts_step with (c := GetGraph); [simpl; tauto|].
    apply reacts_refl. }
  split; [exact R|]. split; [reflexivity|].
  apply (proj1 (@reaction_order_irrelevant [] two_years blank_page "NSW"
                  (PyInt 2019) _ R eq_refl)).
Defined.

(** ** layout.py: the layout, its defaults and the wiring of the callbacks *)

Lemma rev_head_last (A : Type) (l t : list A) (a : A) :
  List.rev l = a :: t -> l = List.rev t ++ [a].
Proof.
  intros H. rewrite <- (rev_involutive l), H. reflexivity.
Qed.

(** X10. [build_layout] raises [IndexError] exactly when one of the two
    option lists is empty.  Otherwise the region control offers the given
    regions and starts on the value of the first one, and the year control
    offers the given years and starts on the last one; the page first
    loaded carries that selection, the year of which [int] converts, so that
    the first drawing of the charts does not raise. *)
Theorem build_layout_defaults (Pastel : list string) (df : DataFrame)
  (regions : list (string * string)) (years : list Z) :
  (regions = [] \/ years = [] ->
   build_layout regions years = Raise IndexError
   /\ first_load regions years = Raise IndexError)
  /\ (regions <> [] -> years <> [] ->
      exists tree label region0 regions' years' year_last ls st sd,
        build_layout regions years = Ok tree
        /\ regions = (label, region0) :: regions'
        /\ years = years' ++ [year_last]
        /\ wired tree ("region-items", "value")
           = [RadioItems "region-items" regions region0 ls st]
        /\ wired tree ("year-items", "value")
           = [Dropdown "year-items" years year_last sd]
        /\ In region0 (map snd regions)
        /\ In year_last years
        /\ (exists u,
               first_load regions years = Ok u
               /\ region_items u = region0
               /\ year_items u = PyInt year_last
               /\ pending u = [GetGraph; GetTitle]
               /\ exists p b,
                    get_graph Pastel df (region_items u) (year_items u)
                    = Ok (p, b))).
Proof.
  split.
  - intros [-> | ->]; [split; reflexivity|].
    destruct regions as [|[label v] regions']; split; reflexivity.
  - intros Hr Hy.
    destruct regions as [|[label region0] regions']; [congruence|].
    destruct (List.rev years) as [|year_last t] eqn:E.
    { exfalso. apply Hy. rewrite <- (rev_involutive years), E. reflexivity. }
    pose proof (rev_head_last _ E) as Hlast.
    unfold build_layout, first_load. rewrite E.
    eexists. exists label, region0, regions', (List.rev t), year_last.
    eexists. eexists. eexists.
    split; [reflexivity|]. split; [reflexivity|]. split; [exact Hlast|].
    split; [reflexivity|]. split; [reflexivity|].
    split; [left; reflexivity|].
    split; [rewrite Hlast; apply in_or_app; right; left; reflexivity|].
    eexists. split; [reflexivity|]. simpl.
    repeat split.
    apply (@get_graph_returns Pastel df region0 (PyInt year_last) year_last).
    reflexivity.
Qed.

Lemma build_layout_defaults_witness :
  REGIONS <> [] /\ YEARS <> []
  /\ exists u,
       first_load REGIONS YEARS = Ok u
       /\ region_items u = "NSW"
       /\ year_items u = PyInt 2020.
Proof.
  assert (H1 : REGIONS <> []) by discriminate.
  assert (H2 : YEARS <> []) by discriminate.
  split; [exact H1|]. split; [exact H2|].
  destruct (proj2 (build_layout_defaults [] scenario REGIONS YEARS) H1 H2)
    as [tree [label [region0 [regions' [years' [year_last [ls [st [sd
        [_ [Hreg [Hyears [_ [_ [_ [_ [u [Hu [Hr [Hy _]]]]]]]]]]]]]]]]]]]].
  exists u. split; [exact Hu|].
  assert (E : Ok u = first_load REGIONS YEARS) by (symmetry; exact Hu).
  vm_compute in E. injection E as ->. split; reflexivity.
Defined.

(** X11. In the layout [build_layout] returns, the components carrying an
    identifier are the two controls, the two titles and the two graphs,
    each identifier once; every [Input] and [Output] of the two callbacks
    names exactly one of them, which has the property wired; and no output
    is written by both callbacks. *)
Theorem layout_wires_callbacks (regions : list (string * string))
  (years : list Z) (tree : component) :
  build_layout regions years = Ok tree ->
  map component_id (identified tree)
  = [ Some "region-items"; Some "year-items"; Some "pie-title";
      Some "pie-chart"; Some "bar-title"; Some "bar-chart" ]
  /\ NoDup (map component_id (identified tree))
  /\ (forall c dep,
         In dep (inputs c ++ outputs c) ->
         exists comp,
           wired tree dep = [comp]
           /\ component_id comp = Some (fst dep)
           /\ offers comp (snd dep) = true)
  /\ (forall dep, In dep (outputs GetGraph) -> ~ In dep (outputs GetTitle)).
Proof.
  intros H. unfold build_layout in H.
  destruct regions as [|[label region0] regions']; [discriminate H|].
  destruct (List.rev years) as [|year_last t]; [discriminate H|].
  injection H as <-.
  split; [reflexivity|]. split; [|split].
  - simpl. repeat (constructor; [simpl; intuition discriminate|]).
    constructor.
  - intros c dep Hin.
    destruct c; simpl in Hin;
      repeat (destruct Hin as [<-|Hin];
              [eexists; split; [reflexivity|]; split; reflexivity|]);
      destruct Hin.
  - intros dep [<-|[<-|[]]] [E|[E|[]]]; discriminate E.
Qed.

Lemma layout_wires_callbacks_witness :
  exists tree,
    build_layout REGIONS YEARS = Ok tree
    /\ NoDup (map component_id (identified tree)).
Proof.
  eexists. split; [reflexivity|].
  apply (proj1 (proj2 (@layout_wires_callbacks REGIONS YEARS _ eq_refl))).
Defined.

(** ** The year as text and as integer; the sizes of the tables *)

(** X12. For an integer year, the text of the year that the titles show
    converts back with [int] to that year: selecting the year by that text
    gives the same titles, the same tables and the same charts. *)
Theorem year_text_round_trip (Pastel : list string) (df : DataFrame)
  (r : string) (z : Z) :
  py_int (PyStr (py_str (PyInt z))) = Ok z
  /\ get_title r (PyStr (py_str (PyInt z))) = get_title r (PyInt z)
  /\ compute_info df r (PyStr (py_str (PyInt z)))
     = compute_info df r (PyInt z)
  /\ get_graph Pastel df r (PyStr (py_str (PyInt z)))
     = get_graph Pastel df r (PyInt z).
Proof.
  assert (H : py_int (PyStr (py_str (PyInt z))) = Ok z)
    by apply py_int_str_of_Z.
  split; [exact H|]. split; [reflexivity|].
  assert (Hc : compute_info df r (PyStr (py_str (PyInt z)))
               = compute_info df r (PyInt z)).
  { rewrite (compute_info_Ok df r (PyStr (py_str (PyInt z))) H).
    rewrite (@compute_info_Ok df r (PyInt z) z eq_refl). reflexivity. }
  split; [exact Hc|]. unfold get_graph. rewrite Hc. reflexivity.
Qed.

Lemma filter_length_le (A : Type) (f : A -> bool) (l : list A) :
  (List.length (filter f l) <= List.length l)%nat.
Proof.
  induction l as [|a l IH]; simpl; [lia|]. destruct (f a); simpl; lia.
Qed.

(** X13. Both tables returned by [compute_info] have one row per distinct
    month of the selected records: they have the same number of rows, at
    most as many as there are selected records, and every month of a table
    has at least one record behind it. *)
Theorem table_sizes (data : DataFrame) (r : string) (yv : pyval) (y : Z)
  (i : info) :
  py_int yv = Ok y ->
  compute_info data r yv = Ok i ->
  List.length (avg_count_pixels i) = List.length (avg_fire_area i)
  /\ (List.length (avg_fire_area i) <= List.length (select data r y))%nat
  /\ (List.length (select data r y) <= List.length data)%nat
  /\ NoDup (map fst (avg_fire_area i))
  /\ (forall m, In m (map fst (avg_fire_area i)) ->
                records_of data r y m <> []).
Proof.
  intros Hy H.
  destruct (compute_info_tables _ _ _ H) as [y' [Hy' [Ha [_ [Hc _]]]]].
  rewrite Hy in Hy'. injection Hy' as <-.
  split; [rewrite Ha, Hc, !length_map; reflexivity|].
  split.
  { rewrite Ha, length_map.
    pose proof (unique_from_length_le [] (map Month_name (select data r y)))
      as Hl.
    rewrite length_map in Hl. exact Hl. }
  split; [apply filter_length_le|].
  split; [rewrite Ha, map_map; simpl; rewrite map_id; apply unique_NoDup|].
  intros m Hm. rewrite Ha, map_map in Hm. simpl in Hm. rewrite map_id in Hm.
  apply unique_In, in_map_iff in Hm. destruct Hm as [rec [Hmonth Hin]].
  apply select_In in Hin.
  intros E.
  assert (Hrec : In rec (records_of data r y m)) by (apply records_of_In; tauto).
  rewrite E in Hrec. destruct Hrec.
Qed.

Lemma table_sizes_witness :
  py_int (PyStr "2019") = Ok 2019%Z
  /\ compute_info scenario "NSW" (PyStr "2019") = Ok scenario_info
  /\ (List.length (avg_fire_area scenario_info)
      <= List.length (select scenario "NSW" 2019))%nat.
Proof.
  split; [reflexivity|]. split; [reflexivity|].
  apply (@table_sizes scenario "NSW" (PyStr "2019") 2019 scenario_info
           eq_refl eq_refl).
Defined.
